(** * turbo-advanced: singleton settings, gateway accessors, media sync

    A shallow embedding of the Django backend's configuration core:
    - [settings_config/models.py]: [SingletonModel] (save / delete / load /
      clear_cache) and its four concrete configuration models;
    - [settings_config/services.py]: the gateway accessors, the Resend e-mail
      client and the Cloudinary upload / delete helpers;
    - [api/signals.py]: the [pre_save] receiver of [User].

    Python objects are modelled dynamically where the code relies on duck
    typing: a configuration instance is a primary key plus the fields of one
    of the four models, and an attribute that the instance's class does not
    declare raises [AttributeError].  Effects are threaded through a small
    state-and-exception monad over a [world] holding the database tables, the
    process-wide cache, the clock, the Cloudinary SDK configuration and the
    trace of outbound requests.  The remote hosts are oracles stored in the
    world: their answer may depend on everything sent so far.

    Not modelled: the ORM-maintained audit timestamps ([created_at],
    [updated_at]), logger output, translation catalogues (a lazy message is
    its msgid) and storage failures of the database itself. *)

From stdpp Require Import gmap strings list fin_maps.
From Stdlib Require Import ZArith String Ascii.

Local Open Scope string_scope.
Local Open Scope Z_scope.

(** ** Python values and exceptions *)

Inductive exn_class :=
  | AttributeError
  | ValueError
  | IndexError
  | DoesNotExist
  | RequestException   (* requests.exceptions.RequestException, other subclasses *)
  | Timeout            (* requests.exceptions.Timeout *)
  | JSONDecodeError    (* requests.exceptions.JSONDecodeError *)
  | CloudinaryError.   (* anything raised inside the cloudinary SDK *)

Record exn := Exn { exn_cls : exn_class; exn_str : string }.

(** [isinstance(e, requests.exceptions.RequestException)]. *)
Definition is_RequestException (e : exn) : bool :=
  match exn_cls e with
  | RequestException | Timeout | JSONDecodeError => true
  | _ => false
  end.

(** [isinstance(e, requests.exceptions.Timeout)]. *)
Definition is_Timeout (e : exn) : bool :=
  match exn_cls e with
  | Timeout => true
  | _ => false
  end.

(** [isinstance(e, Exception)]: every modelled exception. *)
Definition is_Exception (e : exn) : bool := true.

Inductive result (A : Type) :=
  | Ok (a : A)
  | Raise (e : exn).
Arguments Ok {A} a.
Arguments Raise {A} e.

Definition is_Ok {A} (r : result A) : bool :=
  match r with Ok _ => true | Raise _ => false end.

(** Truthiness of [str] and of [str | None]. *)
Definition truthy (s : string) : bool := negb (String.eqb s "").

Definition truthy_opt (o : option string) : bool :=
  match o with
  | Some s => truthy s
  | None => false
  end.

(** ** Python string and list primitives used by [services.py] *)

Module Py.

(** [s.split(sep)] for a one-character separator. *)
Fixpoint split (sep : ascii) (s : string) : list string :=
  match s with
  | EmptyString => [EmptyString]
  | String c s' =>
      if Ascii.eqb c sep then EmptyString :: split sep s'
      else match split sep s' with
           | p :: ps => String c p :: ps
           | [] => [String c EmptyString]
           end
  end.

(** [s.rsplit(sep, 1)] for a one-character separator. *)
Fixpoint rsplit1 (sep : ascii) (s : string) : list string :=
  match s with
  | EmptyString => [EmptyString]
  | String c s' =>
      match rsplit1 sep s' with
      | [t] => if Ascii.eqb c sep then [EmptyString; t] else [String c t]
      | h :: ts => String c h :: ts
      | [] => []
      end
  end.

(** [sub in s]. *)
Fixpoint contains (sub s : string) : bool :=
  String.prefix sub s ||
  match s with
  | EmptyString => false
  | String _ s' => contains sub s'
  end.

(** [s.startswith(p)]. *)
Definition startswith (s p : string) : bool := String.prefix p s.

(** [sep.join(l)]. *)
Definition join (sep : string) (l : list string) : string := String.concat sep l.

(** [l.index(x)]: position of the first occurrence, else [ValueError]. *)
Fixpoint index (x : string) (l : list string) : result nat :=
  match l with
  | [] => Raise (Exn ValueError "is not in list")
  | y :: l' =>
      if String.eqb y x then Ok O
      else match index x l' with
           | Ok i => Ok (S i)
           | Raise e => Raise e
           end
  end.

(** [l[i]], else [IndexError]. *)
Definition getitem {A} (l : list A) (i : nat) : result A :=
  match l !! i with
  | Some a => Ok a
  | None => Raise (Exn IndexError "list index out of range")
  end.

End Py.

(** ** The configuration models ([settings_config/models.py]) *)

Record StripeConfiguration := {
  stripe_is_active : bool;
  publishable_key : string;
  secret_key : string;
  webhook_secret : string;
  is_live_mode : bool;
}.

Record ResendConfiguration := {
  resend_is_active : bool;
  resend_api_key : string;
  from_email : string;
  from_name : string;
  last_test_at : option Z;
  last_test_status : string;
}.

Record TinyMCEConfiguration := {
  tinymce_is_active : bool;
  tinymce_api_key : string;
  height : Z;
  menubar : string;
  plugins : string;
  toolbar : string;
}.

Record CloudinaryConfiguration := {
  cloudinary_is_active : bool;
  cloud_name : string;
  cloudinary_api_key : string;
  api_secret : string;
  default_folder : string;
  auto_optimize : bool;
}.

(** The four subclasses of [SingletonModel]. *)
Inductive kind := Stripe | Resend | TinyMCE | Cloudinary.

#[global] Instance kind_eq_dec : EqDecision kind.
Proof. solve_decision. Defined.

#[global] Instance kind_countable : Countable kind.
Proof.
  refine (inj_countable'
    (fun k => match k with
              | Stripe => 0%nat | Resend => 1%nat | TinyMCE => 2%nat | Cloudinary => 3%nat
              end)
    (fun n => match n with
              | 0%nat => Stripe | 1%nat => Resend | 2%nat => TinyMCE | _ => Cloudinary
              end) _).
  by intros [].
Defined.

Inductive fields :=
  | FStripe (c : StripeConfiguration)
  | FResend (c : ResendConfiguration)
  | FTinyMCE (c : TinyMCEConfiguration)
  | FCloudinary (c : CloudinaryConfiguration).

(** A model instance: its primary key and the fields of its class. *)
Record instance := Instance { pk : option Z; attrs : fields }.

Definition kind_of_fields (f : fields) : kind :=
  match f with
  | FStripe _ => Stripe
  | FResend _ => Resend
  | FTinyMCE _ => TinyMCE
  | FCloudinary _ => Cloudinary
  end.

(** [self.__class__]. *)
Definition class_of (i : instance) : kind := kind_of_fields (attrs i).

(** [cls.__name__]. *)
Definition __name__ (k : kind) : string :=
  match k with
  | Stripe => "StripeConfiguration"
  | Resend => "ResendConfiguration"
  | TinyMCE => "TinyMCEConfiguration"
  | Cloudinary => "CloudinaryConfiguration"
  end.

(** Field defaults, as declared on the models. *)
Definition default_fields (k : kind) : fields :=
  match k with
  | Stripe => FStripe {|
      stripe_is_active := false; publishable_key := ""; secret_key := "";
      webhook_secret := ""; is_live_mode := false |}
  | Resend => FResend {|
      resend_is_active := false; resend_api_key := ""; from_email := "";
      from_name := ""; last_test_at := None; last_test_status := "" |}
  | TinyMCE => FTinyMCE {|
      tinymce_is_active := false; tinymce_api_key := ""; height := 500;
      menubar := "file edit view insert format tools table help";
      plugins := "advlist autolink lists link image charmap preview anchor searchreplace visualblocks code fullscreen insertdatetime media table help wordcount";
      toolbar := "undo redo | blocks | bold italic forecolor | alignleft aligncenter alignright alignjustify | bullist numlist outdent indent | removeformat | image media link | code | help" |}
  | Cloudinary => FCloudinary {|
      cloudinary_is_active := false; cloud_name := ""; cloudinary_api_key := "";
      api_secret := ""; default_folder := "uploads"; auto_optimize := true |}
  end.

(** Attribute access.  Every model declares [is_active]; the other
    attributes exist only on the classes that declare them. *)
Definition is_active (i : instance) : bool :=
  match attrs i with
  | FStripe c => stripe_is_active c
  | FResend c => resend_is_active c
  | FTinyMCE c => tinymce_is_active c
  | FCloudinary c => cloudinary_is_active c
  end.

Definition no_attribute {A} (name : string) : result A :=
  Raise (Exn AttributeError name).

Definition get_secret_key (i : instance) : result string :=
  match attrs i with
  | FStripe c => Ok (secret_key c)
  | _ => no_attribute "secret_key"
  end.

Definition get_api_key (i : instance) : result string :=
  match attrs i with
  | FResend c => Ok (resend_api_key c)
  | FTinyMCE c => Ok (tinymce_api_key c)
  | FCloudinary c => Ok (cloudinary_api_key c)
  | FStripe _ => no_attribute "api_key"
  end.

Definition get_from_email (i : instance) : result string :=
  match attrs i with
  | FResend c => Ok (from_email c)
  | _ => no_attribute "from_email"
  end.

Definition get_from_name (i : instance) : result string :=
  match attrs i with
  | FResend c => Ok (from_name c)
  | _ => no_attribute "from_name"
  end.

Definition get_cloud_name (i : instance) : result string :=
  match attrs i with
  | FCloudinary c => Ok (cloud_name c)
  | _ => no_attribute "cloud_name"
  end.

Definition get_api_secret (i : instance) : result string :=
  match attrs i with
  | FCloudinary c => Ok (api_secret c)
  | _ => no_attribute "api_secret"
  end.

Definition get_default_folder (i : instance) : result string :=
  match attrs i with
  | FCloudinary c => Ok (default_folder c)
  | _ => no_attribute "default_folder"
  end.

Definition get_auto_optimize (i : instance) : result bool :=
  match attrs i with
  | FCloudinary c => Ok (auto_optimize c)
  | _ => no_attribute "auto_optimize"
  end.

(** ** The [User] model ([api/models.py]) *)

(** [profile_picture] is the name held by the image field file (falsy when
    absent or empty); [profile_picture_url] is a plain URL field. *)
Record User := {
  user_pk : option Z;
  username : string;
  email : string;
  profile_picture : option string;
  profile_picture_url : string;
}.

Definition set_profile_picture (v : option string) (u : User) : User :=
  {| user_pk := user_pk u; username := username u; email := email u;
     profile_picture := v; profile_picture_url := profile_picture_url u |}.

Definition set_profile_picture_url (v : string) (u : User) : User :=
  {| user_pk := user_pk u; username := username u; email := email u;
     profile_picture := profile_picture u; profile_picture_url := v |}.

(** [not instance.pk]: the key is falsy when unset or zero. *)
Definition pk_truthy (o : option Z) : bool :=
  match o with
  | Some z => negb (z =? 0)%Z
  | None => false
  end.

(** ** The remote hosts *)

(** The JSON document sent by [requests.post] to the Resend API, with the
    headers and the timeout of the call. *)
Record email_request := {
  req_url : string;
  req_authorization : string;
  req_content_type : string;
  req_from : string;
  req_to : list string;
  req_subject : string;
  req_html : string;
  req_timeout : Z;
}.

(** Keyword arguments of [cloudinary.uploader.upload]. *)
Record upload_params := {
  up_folder : string;
  up_resource_type : string;
  up_timeout : Z;
  up_transformation : option (gmap string string);
}.

(** One outbound request. *)
Inductive call :=
  | RequestsPost (r : email_request)
  | UploaderUpload (image_file : string) (p : upload_params)
  | UploaderDestroy (public_id : string).

(** What [response.json()] yields: a JSON object, whose member values are
    kept by their [str()] rendering (the only way the code uses them), or any
    other JSON value. *)
Inductive json :=
  | JsonObject (members : gmap string string)
  | JsonOther.

(** An HTTP response; [body_json = None] when the body is not JSON. *)
Record response := {
  status_code : Z;
  text : string;
  body_json : option json;
}.

(** [requests.post] returns a response or raises a [RequestException]. *)
Inductive post_outcome :=
  | PostReturns (r : response)
  | PostTimeout (msg : string)
  | PostFails (msg : string).

(** [cloudinary.uploader.upload] returns a dict, of which only
    [secure_url] is read, or raises. *)
Inductive upload_outcome :=
  | UploadReturns (secure_url : option string)
  | UploadRaises (msg : string).

(** [cloudinary.uploader.destroy] returns a dict, of which only [result]
    is read, or raises. *)
Inductive destroy_outcome :=
  | DestroyReturns (res : option string)
  | DestroyRaises (msg : string).

(** The remote hosts answer as a function of the requests made so far. *)
Record remote := {
  post_answer : list call -> email_request -> post_outcome;
  upload_answer : list call -> string -> upload_params -> upload_outcome;
  destroy_answer : list call -> string -> destroy_outcome;
}.

(** ** The world *)

Record world := World {
  clock : Z;                                   (* time.time(), in seconds *)
  tables : gmap (kind * Z) instance;           (* one table per settings model *)
  users : gmap Z User;                         (* table [users] *)
  cache : gmap string (instance * Z);          (* key -> (pickled value, expiry) *)
  sdk_config : option (string * string * string); (* cloudinary.config(...) *)
  calls : list call;                           (* outbound requests, oldest first *)
  net : remote;
}.

Definition set_tables (t : gmap (kind * Z) instance) (w : world) : world :=
  World (clock w) t (users w) (cache w) (sdk_config w) (calls w) (net w).

Definition set_cache (c : gmap string (instance * Z)) (w : world) : world :=
  World (clock w) (tables w) (users w) c (sdk_config w) (calls w) (net w).

Definition set_sdk_config (s : option (string * string * string)) (w : world) : world :=
  World (clock w) (tables w) (users w) (cache w) s (calls w) (net w).

Definition set_calls (l : list call) (w : world) : world :=
  World (clock w) (tables w) (users w) (cache w) (sdk_config w) l (net w).

(** Time passes between two operations. *)
Definition advance (d : Z) (w : world) : world :=
  World (clock w + d) (tables w) (users w) (cache w) (sdk_config w) (calls w) (net w).

(** ** The state-and-exception monad *)

Definition M (A : Type) : Type := world -> result A * world.

Definition ret {A} (a : A) : M A := fun w => (Ok a, w).

Definition bind {A B} (m : M A) (k : A -> M B) : M B :=
  fun w =>
    match m w with
    | (Ok a, w') => k a w'
    | (Raise e, w') => (Raise e, w')
    end.

Definition raise {A} (e : exn) : M A := fun w => (Raise e, w).

Definition lift {A} (r : result A) : M A := fun w => (r, w).

(** [try: body  except <catches> as e: handler e]. *)
Definition try_except {A} (body : M A) (catches : exn -> bool) (handler : exn -> M A) : M A :=
  fun w =>
    match body w with
    | (Ok a, w') => (Ok a, w')
    | (Raise e, w') => if catches e then handler e w' else (Raise e, w')
    end.

Notation "'do' x <- m ; k" := (bind m (fun x => k))
  (at level 10, x name, m at level 100, k at level 200).
Notation "m ;; k" := (bind m (fun _ => k))
  (at level 100, k at level 200, right associativity).

(** ** The cache: Django's default local-memory backend *)

(** [cache.get(key)]: an entry whose expiry has been reached is dropped and
    reads as absent. *)
Definition cache_get (key : string) : M (option instance) :=
  fun w =>
    match cache w !! key with
    | Some (v, expiry) =>
        if expiry <=? clock w then (Ok None, set_cache (base.delete key (cache w)) w)
        else (Ok (Some v), w)
    | None => (Ok None, w)
    end.

(** [cache.set(key, value, timeout=timeout)]. *)
Definition cache_set (key : string) (v : instance) (timeout : Z) : M unit :=
  fun w => (Ok tt, set_cache (<[key := (v, clock w + timeout)]> (cache w)) w).

(** [cache.delete(key)]. *)
Definition cache_delete (key : string) : M unit :=
  fun w => (Ok tt, set_cache (base.delete key (cache w)) w).

(** ** [SingletonModel] *)

Module SingletonModel.

Definition cache_key (cls : kind) : string := __name__ cls +:+ "_singleton".

(** The next value of the table's key sequence. *)
Definition next_pk (cls : kind) (t : gmap (kind * Z) instance) : Z :=
  1 + map_fold (fun key _ acc => if decide (key.1 = cls) then Z.max key.2 acc else acc) 0 t.

(** [models.Model.save]: write the row under the instance's key, drawing a
    key from the sequence when the instance has none. *)
Definition Model_save (self : instance) : M instance :=
  fun w =>
    let key := match pk self with
               | Some z => z
               | None => next_pk (class_of self) (tables w)
               end in
    let self := Instance (Some key) (attrs self) in
    (Ok self, set_tables (<[(class_of self, key) := self]> (tables w)) w).

(** [models.Model.delete]: remove the row and unset the instance's key. *)
Definition Model_delete (self : instance) : M instance :=
  fun w =>
    match pk self with
    | Some z =>
        (Ok (Instance None (attrs self)),
         set_tables (base.delete (class_of self, z) (tables w)) w)
    | None => (Raise (Exn ValueError "pk attribute is set to None"), w)
    end.

Definition clear_cache (self : instance) : M unit :=
  let cache_key := cache_key (class_of self) in
  cache_delete cache_key.

(** [save] returns the instance as the call leaves it. *)
Definition save (self : instance) : M instance :=
  let self := Instance (Some 1) (attrs self) in
  do self <- Model_save self;
  clear_cache self;;
  ret self.

Definition delete (self : instance) : M instance :=
  clear_cache self;;
  Model_delete self.

(** [cls.objects.get_or_create(pk=1)]: the stored row, or a new instance
    with the declared defaults, saved through the class's own [save]. *)
Definition get_or_create (cls : kind) (key : Z) : M (instance * bool) :=
  fun w =>
    match tables w !! (cls, key) with
    | Some row => (Ok (row, false), w)
    | None =>
        (do obj <- save (Instance (Some key) (default_fields cls));
         ret (obj, true)) w
    end.

Definition load (cls : kind) : M instance :=
  let cache_key := cache_key cls in
  do instance <- cache_get cache_key;
  match instance with
  | Some instance => ret instance
  | None =>
      do r <- get_or_create cls 1;
      let instance := r.1 in
      cache_set cache_key instance 300;;
      ret instance
  end.

End SingletonModel.

(** ** Primitives of the remote calls *)

(** [requests.post(...)]: the request joins the trace, whatever the answer. *)
Definition requests_post (r : email_request) : M response :=
  fun w =>
    let w' := set_calls (calls w ++ [RequestsPost r]) w in
    match post_answer (net w) (calls w) r with
    | PostReturns resp => (Ok resp, w')
    | PostTimeout msg => (Raise (Exn Timeout msg), w')
    | PostFails msg => (Raise (Exn RequestException msg), w')
    end.

(** [response.json()]. *)
Definition response_json (r : response) : result json :=
  match body_json r with
  | Some j => Ok j
  | None => Raise (Exn JSONDecodeError "Expecting value")
  end.

(** [error_data.get(key, default)]: only a dict has [get]. *)
Definition json_get (j : json) (key : string) (dflt : string) : result string :=
  match j with
  | JsonObject members => Ok (default dflt (members !! key))
  | JsonOther => no_attribute "get"
  end.

(** [cloudinary.uploader.upload(image_file, **upload_params)] followed by
    the read of [secure_url]. *)
Definition uploader_upload (image_file : string) (p : upload_params) : M (option string) :=
  fun w =>
    let w' := set_calls (calls w ++ [UploaderUpload image_file p]) w in
    match upload_answer (net w) (calls w) image_file p with
    | UploadReturns secure_url => (Ok secure_url, w')
    | UploadRaises msg => (Raise (Exn CloudinaryError msg), w')
    end.

(** [cloudinary.uploader.destroy(public_id)] followed by the read of
    [result]. *)
Definition uploader_destroy (public_id : string) : M (option string) :=
  fun w =>
    let w' := set_calls (calls w ++ [UploaderDestroy public_id]) w in
    match destroy_answer (net w) (calls w) public_id with
    | DestroyReturns res => (Ok res, w')
    | DestroyRaises msg => (Raise (Exn CloudinaryError msg), w')
    end.

(** [CloudinaryConfiguration.configure]. *)
Definition configure (self : instance) : M unit :=
  do cloud_name <- lift (get_cloud_name self);
  do api_key <- lift (get_api_key self);
  do api_secret <- lift (get_api_secret self);
  fun w => (Ok tt, set_sdk_config (Some (cloud_name, api_key, api_secret)) w).

(** ** [settings_config/services.py] *)

Definition get_stripe_config : M (option instance) :=
  do config <- SingletonModel.load Stripe;
  if is_active config then
    do secret_key <- lift (get_secret_key config);
    if truthy secret_key then ret (Some config) else ret None
  else ret None.

Definition get_resend_config : M (option instance) :=
  do config <- SingletonModel.load Resend;
  if is_active config then
    do api_key <- lift (get_api_key config);
    if truthy api_key then ret (Some config) else ret None
  else ret None.

Definition get_tinymce_config : M (option instance) :=
  do config <- SingletonModel.load TinyMCE;
  if is_active config then
    do api_key <- lift (get_api_key config);
    if truthy api_key then ret (Some config) else ret None
  else ret None.

Definition get_cloudinary_config : M (option instance) :=
  do config <- SingletonModel.load Cloudinary;
  if is_active config then
    do cloud_name <- lift (get_cloud_name config);
    if truthy cloud_name then
      do api_key <- lift (get_api_key config);
      if truthy api_key then
        do api_secret <- lift (get_api_secret config);
        if truthy api_secret then ret (Some config) else ret None
      else ret None
    else ret None
  else ret None.

(** The [from] member of both e-mail requests. *)
Definition sender_of (config : instance) : M string :=
  do from_name <- lift (get_from_name config);
  if truthy from_name then
    do from_email <- lift (get_from_email config);
    ret (from_name +:+ " <" +:+ from_email +:+ ">")
  else lift (get_from_email config).

Definition test_email_html : string :=
"
                    <h1>Test Email Successful!</h1>
                    <p>Your Resend email configuration is working correctly.</p>
                    <p>This email was sent from Turbo Admin settings.</p>
                ".

Definition send_test_email (config : instance) (to_email : string) : M (bool * string) :=
  do api_key <- lift (get_api_key config);
  if negb (truthy api_key) then ret (false, "API key is not configured.")
  else
    do from_email <- lift (get_from_email config);
    if negb (truthy from_email) then ret (false, "From email is not configured.")
    else
      try_except
        (do api_key <- lift (get_api_key config);
         do sender <- sender_of config;
         do response <- requests_post {|
              req_url := "https://api.resend.com/emails";
              req_authorization := "Bearer " +:+ api_key;
              req_content_type := "application/json";
              req_from := sender;
              req_to := [to_email];
              req_subject := "Test Email - Turbo Configuration";
              req_html := test_email_html;
              req_timeout := 10 |};
         if status_code response =? 200 then
           ret (true, "Test email sent successfully to " +:+ to_email)
         else
           do error_data <- lift (response_json response);
           do error_message <- lift (json_get error_data "message" (text response));
           ret (false, "Failed to send email: " +:+ error_message))
        is_RequestException
        (fun e =>
           if is_Timeout e then ret (false, "Request timed out. Please try again.")
           else ret (false, "Failed to send email: " +:+ exn_str e)).

Definition send_email (to_email subject html_content : string) : M (bool * string) :=
  do config <- get_resend_config;
  match config with
  | None => ret (false, "Email service is not configured.")
  | Some config =>
      try_except
        (do api_key <- lift (get_api_key config);
         do sender <- sender_of config;
         do response <- requests_post {|
              req_url := "https://api.resend.com/emails";
              req_authorization := "Bearer " +:+ api_key;
              req_content_type := "application/json";
              req_from := sender;
              req_to := [to_email];
              req_subject := subject;
              req_html := html_content;
              req_timeout := 10 |};
         if status_code response =? 200 then
           ret (true, "Email sent successfully.")
         else
           do error_data <- lift (response_json response);
           do error_message <- lift (json_get error_data "message" (text response));
           ret (false, "Failed to send email: " +:+ error_message))
        is_RequestException
        (fun e => ret (false, "Failed to send email: " +:+ exn_str e))
  end.

Definition configure_cloudinary : M bool :=
  do config <- get_cloudinary_config;
  match config with
  | Some config => configure config;; ret true
  | None => ret false
  end.

(** Truthiness of a dict argument that defaults to [None]. *)
Definition truthy_dict (d : option (gmap string string)) : bool :=
  match d with
  | Some m => negb (bool_decide (m = ∅))
  | None => false
  end.

Definition upload_to_cloudinary (image_file : string) (folder : option string)
    (transformation : option (gmap string string)) (timeout : Z) : M (option string) :=
  do config <- get_cloudinary_config;
  match config with
  | None => ret None
  | Some config =>
      try_except
        (configure config;;
         do folder <- match folder with
                      | Some f => if truthy f then ret f else lift (get_default_folder config)
                      | None => lift (get_default_folder config)
                      end;
         do auto_optimize <- lift (get_auto_optimize config);
         let optimized : option (gmap string string) :=
           if auto_optimize
           then Some (<["quality" := "auto:good"]> (<["fetch_format" := "auto"]> ∅))
           else None in
         let merged : option (gmap string string) :=
           if truthy_dict transformation then
             match optimized, transformation with
             | Some base, Some extra => Some (extra ∪ base)
             | _, _ => transformation
             end
           else optimized in
         uploader_upload image_file {|
           up_folder := folder;
           up_resource_type := "image";
           up_timeout := timeout;
           up_transformation := merged |})
        is_Exception
        (fun _ => ret None)
  end.

Definition delete_from_cloudinary (url : string) : M bool :=
  do config <- get_cloudinary_config;
  match config with
  | None => ret false
  | Some config =>
      try_except
        (configure config;;
         let parts := Py.split "/" url in
         if Py.contains "cloudinary.com" url && (2 <=? List.length parts)%nat then
           do upload_index <- lift (Py.index "upload" parts);
           let public_id_parts := drop (upload_index + 1) parts in
           do first <- lift (Py.getitem public_id_parts 0);
           let public_id_parts :=
             if Py.startswith first "v" then drop 1 public_id_parts else public_id_parts in
           let public_id := Py.join "/" public_id_parts in
           do public_id <- lift (Py.getitem (Py.rsplit1 "." public_id) 0);
           do result <- uploader_destroy public_id;
           ret (bool_decide (result = Some "ok"))
         else ret false)
        is_Exception
        (fun _ => ret false)
  end.

(** ** [api/signals.py] *)

(** [User.objects.get(pk=key)]. *)
Definition User_objects_get (key : option Z) : M User :=
  fun w =>
    match key with
    | Some z =>
        match users w !! z with
        | Some u => (Ok u, w)
        | None => (Raise (Exn DoesNotExist "User matching query does not exist."), w)
        end
    | None => (Raise (Exn DoesNotExist "User matching query does not exist."), w)
    end.

Definition is_DoesNotExist (e : exn) : bool :=
  match exn_cls e with
  | DoesNotExist => true
  | _ => false
  end.

(** The [pre_save] receiver; it returns the instance as it leaves it. *)
Definition upload_profile_picture_to_cloudinary (instance : User) : M User :=
  if negb (pk_truthy (user_pk instance)) then
    match profile_picture instance with
    | Some file =>
        if truthy file then
          do url <- upload_to_cloudinary file (Some "users/profile_pictures") None 30;
          match url with
          | Some url =>
              if truthy url then
                ret (set_profile_picture None (set_profile_picture_url url instance))
              else ret instance
          | None => ret instance
          end
        else ret instance
    | None => ret instance
    end
  else
    do found <- try_except
                  (do old_instance <- User_objects_get (user_pk instance);
                   ret (Some old_instance))
                  is_DoesNotExist
                  (fun _ => ret None);
    match found with
    | None => ret instance
    | Some old_instance =>
        match profile_picture instance with
        | Some file =>
            if truthy file
               && negb (bool_decide (profile_picture instance = profile_picture old_instance))
            then
              (if truthy (profile_picture_url old_instance)
               then (do _ <- delete_from_cloudinary (profile_picture_url old_instance); ret tt)
               else ret tt);;
              do url <- upload_to_cloudinary file (Some "users/profile_pictures") None 30;
              match url with
              | Some url =>
                  if truthy url then
                    ret (set_profile_picture None (set_profile_picture_url url instance))
                  else ret instance
              | None => ret instance
              end
            else ret instance
        | None => ret instance
        end
    end.

(** ** Specification vocabulary *)

(** Dynamic typing discipline of the settings store: a row of a model's
    table, and a cache entry under a model's key, is an instance of that
    model.  It holds at start-up and every operation keeps it. *)
Definition typed (w : world) : Prop :=
  (forall k z r, tables w !! (k, z) = Some r -> class_of r = k) /\
  (forall k v e, cache w !! SingletonModel.cache_key k = Some (v, e) -> class_of v = k).

(** The rows of one model's table. *)
Definition rows_of (k : kind) (w : world) : gmap (kind * Z) instance :=
  filter (fun kv => kv.1.1 = k) (tables w).

(** No row of the model lies off the fixed key. *)
Definition only_fixed_key (k : kind) (w : world) : Prop :=
  forall z, is_Some (tables w !! (k, z)) -> z = 1.

(** A sequence of [save] calls, first to last. *)
Fixpoint save_all (l : list instance) : M unit :=
  match l with
  | [] => ret tt
  | self :: l' => do _ <- SingletonModel.save self; save_all l'
  end.

(** What [cache.get] finds at the current time. *)
Definition cached (k : kind) (w : world) : option instance :=
  match cache w !! SingletonModel.cache_key k with
  | Some (v, expiry) => if expiry <=? clock w then None else Some v
  | None => None
  end.

(** The gateway accessor of each model. *)
Definition get_config (k : kind) : M (option instance) :=
  match k with
  | Stripe => get_stripe_config
  | Resend => get_resend_config
  | TinyMCE => get_tinymce_config
  | Cloudinary => get_cloudinary_config
  end.

(** The gate in the spec's words: the active flag is set and every field
    the integration requires is non-empty. *)
Definition required_fields_present (r : instance) : bool :=
  match attrs r with
  | FStripe c => truthy (secret_key c)
  | FResend c => truthy (resend_api_key c)
  | FTinyMCE c => truthy (tinymce_api_key c)
  | FCloudinary c =>
      truthy (cloud_name c) && truthy (cloudinary_api_key c) && truthy (api_secret c)
  end.

Definition configured (r : instance) : bool :=
  is_active r && required_fields_present r.

(** The world differs from another one in the settings store only. *)
Definition same_outside_settings (w w' : world) : Prop :=
  clock w' = clock w /\ users w' = users w /\ calls w' = calls w /\ net w' = net w.

(** [s] has no occurrence of the character [c]. *)
Fixpoint free_of (c : ascii) (s : string) : bool :=
  match s with
  | EmptyString => true
  | String a s' => negb (Ascii.eqb a c) && free_of c s'
  end.

(** [p] is [s] without its extension: [s] itself when it has no dot, else
    what precedes the last dot. *)
Definition without_extension (s p : string) : Prop :=
  (free_of "." s = true /\ p = s) \/
  (exists ext, free_of "." ext = true /\ s = p +:+ "." +:+ ext).

(** What the destroy call's outcome is turned into: [result == "ok"], and
    [False] when the call raises. *)
Definition reports_ok (o : destroy_outcome) : bool :=
  match o with
  | DestroyReturns res => bool_decide (res = Some "ok")
  | DestroyRaises _ => false
  end.

(** The request both e-mail functions build from a Resend configuration. *)
Definition resend_request (c : ResendConfiguration) (to_email subject html : string)
    : email_request := {|
  req_url := "https://api.resend.com/emails";
  req_authorization := "Bearer " +:+ resend_api_key c;
  req_content_type := "application/json";
  req_from := if truthy (from_name c)
              then from_name c +:+ " <" +:+ from_email c +:+ ">"
              else from_email c;
  req_to := [to_email];
  req_subject := subject;
  req_html := html;
  req_timeout := 10 |}.

(** The four outcomes the e-mail client reports, and the one it does not
    handle: a non-200 response whose JSON body is not an object. *)
Inductive email_outcome :=
  | Sent
  | ProviderRejected (message : string)
  | TimedOut (message : string)
  | TransportFailure (message : string)
  | UnhandledBody.

Definition classify (o : post_outcome) : email_outcome :=
  match o with
  | PostReturns r =>
      if status_code r =? 200 then Sent
      else match body_json r with
           | Some (JsonObject members) => ProviderRejected (default (text r) (members !! "message"))
           | Some JsonOther => UnhandledBody
           | None => TransportFailure "Expecting value"
           end
  | PostTimeout msg => TimedOut msg
  | PostFails msg => TransportFailure msg
  end.

(** The user row the hook compares against. *)
Definition stored_user (instance : User) (w : world) : option User :=
  match user_pk instance with
  | Some z => users w !! z
  | None => None
  end.

(** The instance after a successful upload. *)
Definition with_remote_url (url : string) (instance : User) : User :=
  set_profile_picture None (set_profile_picture_url url instance).

(** ** Sample worlds *)

(** Remote hosts that cannot be reached. *)
Definition unreachable : remote := {|
  post_answer := fun _ _ => PostFails "connection refused";
  upload_answer := fun _ _ _ => UploadRaises "connection refused";
  destroy_answer := fun _ _ => DestroyRaises "connection refused" |}.

(** Start-up: empty tables, empty cache, nothing sent. *)
Definition startup (n : remote) : world := World 0 ∅ ∅ ∅ None [] n.

Definition sample_resend : instance :=
  Instance (Some 7) (FResend {|
    resend_is_active := true; resend_api_key := "re_123";
    from_email := "noreply@example.com"; from_name := "Turbo";
    last_test_at := None; last_test_status := "" |}).

Definition sample_cloudinary : instance :=
  Instance None (FCloudinary {|
    cloudinary_is_active := true; cloud_name := "demo";
    cloudinary_api_key := "key"; api_secret := "secret";
    default_folder := "uploads"; auto_optimize := true |}).

(** A Resend API that answers every request with status 500 and a JSON
    body that is an array, not an object. *)
Definition resend_answers_array : remote := {|
  post_answer := fun _ _ =>
    PostReturns {| status_code := 500; text := "[]"; body_json := Some JsonOther |};
  upload_answer := fun _ _ _ => UploadRaises "connection refused";
  destroy_answer := fun _ _ => DestroyRaises "connection refused" |}.

(** The world after the administrator saved [sample_resend]. *)
Definition resend_configured (n : remote) : world :=
  (SingletonModel.save sample_resend (startup n)).2.

(** A media host that stores every upload and confirms every destroy. *)
Definition cloudinary_up : remote := {|
  post_answer := fun _ _ => PostFails "connection refused";
  upload_answer := fun _ _ _ =>
    UploadReturns
      (Some "https://res.cloudinary.com/demo/image/upload/v2/users/profile_pictures/new.jpg");
  destroy_answer := fun _ _ => DestroyReturns (Some "ok") |}.

Definition sample_old_url : string :=
  "https://res.cloudinary.com/demo/image/upload/v1/users/profile_pictures/old.jpg".

(** A new user with a file attached. *)
Definition sample_new_user : User := {|
  user_pk := None; username := "ada"; email := "ada@example.com";
  profile_picture := Some "avatar.png"; profile_picture_url := "" |}.

(** A stored user whose picture was uploaded earlier. *)
Definition sample_stored_user : User := {|
  user_pk := Some 5; username := "bob"; email := "bob@example.com";
  profile_picture := Some "old.png"; profile_picture_url := sample_old_url |}.

(** The same user submitted with a new file, and with the file cleared. *)
Definition sample_changed_user : User :=
  set_profile_picture (Some "new.png") sample_stored_user.

Definition sample_cleared_user : User :=
  set_profile_picture None sample_stored_user.

(** Cloudinary configured, one stored user, nothing cached or sent. *)
Definition media_world : world :=
  World 0 {[ (Cloudinary, 1) := Instance (Some 1) (attrs sample_cloudinary) ]}
        {[ 5 := sample_stored_user ]} ∅ None [] cloudinary_up.

(** The world after the first [load] of the Resend settings. *)
Definition resend_cached : world :=
  (SingletonModel.load Resend (resend_configured unreachable)).2.

(** ** [TinyMCEConfiguration] methods ([settings_config/models.py]) *)

(** A Python [str] is a sequence of Unicode code points.  A [string] holds
    a text in UTF-8, and [chars] reads the characters off it, each with the
    bytes that encode it.  A byte that does not begin a well-formed sequence
    is read as the character of its own number, so every [string] is a text
    and [chars] loses nothing of it. *)
Record uchar := UChar { code_point : N; encoding : string }.

Definition byte_of (c : ascii) : N := N_of_ascii c.

(** A continuation byte, [0x80 .. 0xBF], and the six bits it carries. *)
Definition is_continuation (c : ascii) : bool :=
  (128 <=? byte_of c)%N && (byte_of c <=? 191)%N.

Definition payload (c : ascii) : N := (byte_of c - 128)%N.

(** Two bytes, lead [0xC2 .. 0xDF]: [U+0080 .. U+07FF]. *)
Definition decode2 (c0 c1 : ascii) : option N :=
  if (194 <=? byte_of c0)%N && (byte_of c0 <=? 223)%N && is_continuation c1
  then Some ((byte_of c0 - 192) * 64 + payload c1)%N
  else None.

(** Three bytes, lead [0xE0 .. 0xEF]: [U+0800 .. U+FFFF] without the
    surrogates [U+D800 .. U+DFFF]. *)
Definition decode3 (c0 c1 c2 : ascii) : option N :=
  if (224 <=? byte_of c0)%N && (byte_of c0 <=? 239)%N
     && is_continuation c1 && is_continuation c2
  then
    let cp := ((byte_of c0 - 224) * 4096 + payload c1 * 64 + payload c2)%N in
    if (2048 <=? cp)%N && negb ((55296 <=? cp)%N && (cp <=? 57343)%N)
    then Some cp else None
  else None.

(** Four bytes, lead [0xF0 .. 0xF4]: [U+10000 .. U+10FFFF]. *)
Definition decode4 (c0 c1 c2 c3 : ascii) : option N :=
  if (240 <=? byte_of c0)%N && (byte_of c0 <=? 244)%N
     && is_continuation c1 && is_continuation c2 && is_continuation c3
  then
    let cp := ((byte_of c0 - 240) * 262144 + payload c1 * 4096
               + payload c2 * 64 + payload c3)%N in
    if (65536 <=? cp)%N && (cp <=? 1114111)%N then Some cp else None
  else None.

Fixpoint chars (s : string) : list uchar :=
  match s with
  | EmptyString => []
  | String c0 s0 =>
      match s0 with
      | EmptyString => [UChar (byte_of c0) (String c0 EmptyString)]
      | String c1 s1 =>
          match decode2 c0 c1 with
          | Some cp => UChar cp (String c0 (String c1 EmptyString)) :: chars s1
          | None =>
              match s1 with
              | EmptyString => UChar (byte_of c0) (String c0 EmptyString) :: chars s0
              | String c2 s2 =>
                  match decode3 c0 c1 c2 with
                  | Some cp =>
                      UChar cp (String c0 (String c1 (String c2 EmptyString))) :: chars s2
                  | None =>
                      match s2 with
                      | EmptyString =>
                          UChar (byte_of c0) (String c0 EmptyString) :: chars s0
                      | String c3 s3 =>
                          match decode4 c0 c1 c2 c3 with
                          | Some cp =>
                              UChar cp (String c0 (String c1 (String c2 (String c3 EmptyString))))
                              :: chars s3
                          | None =>
                              UChar (byte_of c0) (String c0 EmptyString) :: chars s0
                          end
                      end
                  end
              end
          end
      end
  end.

(** The text a sequence of characters makes. *)
Fixpoint text_of (l : list uchar) : string :=
  match l with
  | [] => EmptyString
  | ch :: l' => encoding ch +:+ text_of l'
  end.

(** [c.isspace()]: the characters Python counts as whitespace, which are
    [U+0009 .. U+000D], [U+001C .. U+0020], [U+0085], [U+00A0], [U+1680],
    [U+2000 .. U+200A], [U+2028], [U+2029], [U+202F], [U+205F] and
    [U+3000]. *)
Definition isspace (cp : N) : bool :=
  ((9 <=? cp)%N && (cp <=? 13)%N) || ((28 <=? cp)%N && (cp <=? 32)%N)
  || (cp =? 133)%N || (cp =? 160)%N || (cp =? 5760)%N
  || ((8192 <=? cp)%N && (cp <=? 8202)%N)
  || (cp =? 8232)%N || (cp =? 8233)%N || (cp =? 8239)%N || (cp =? 8287)%N
  || (cp =? 12288)%N.

(** [s.split()] on the characters: the maximal runs of non-whitespace
    characters, first to last. *)
Fixpoint split_runs (l : list uchar) : list (list uchar) :=
  match l with
  | [] => []
  | ch :: l' =>
      if isspace (code_point ch) then split_runs l'
      else match l' with
           | [] => [[ch]]
           | ch' :: _ =>
               if isspace (code_point ch') then [ch] :: split_runs l'
               else match split_runs l' with
                    | word :: words => (ch :: word) :: words
                    | [] => [[ch]]
                    end
           end
  end.

(** [s.split()]. *)
Definition str_split (s : string) : list string := map text_of (split_runs (chars s)).

Definition get_height (i : instance) : result Z :=
  match attrs i with
  | FTinyMCE c => Ok (height c)
  | _ => no_attribute "height"
  end.

Definition get_menubar (i : instance) : result string :=
  match attrs i with
  | FTinyMCE c => Ok (menubar c)
  | _ => no_attribute "menubar"
  end.

Definition get_plugins (i : instance) : result string :=
  match attrs i with
  | FTinyMCE c => Ok (plugins c)
  | _ => no_attribute "plugins"
  end.

Definition get_toolbar (i : instance) : result string :=
  match attrs i with
  | FTinyMCE c => Ok (toolbar c)
  | _ => no_attribute "toolbar"
  end.

(** The dictionary built by [get_config_dict]. *)
Record tinymce_config_dict := {
  dict_height : Z;
  dict_menubar : string;
  dict_plugins : list string;
  dict_toolbar : string;
  dict_content_css : string;
  dict_relative_urls : bool;
  dict_remove_script_host : bool;
  dict_convert_urls : bool;
  dict_branding : bool;
  dict_promotion : bool;
  dict_referrer_policy : string;
}.

Definition get_config_dict (self : instance) : result tinymce_config_dict :=
  match get_height self with
  | Raise e => Raise e
  | Ok height =>
  match get_menubar self with
  | Raise e => Raise e
  | Ok menubar =>
  match get_plugins self with
  | Raise e => Raise e
  | Ok plugins =>
  match get_toolbar self with
  | Raise e => Raise e
  | Ok toolbar =>
      Ok {| dict_height := height;
            dict_menubar := menubar;
            dict_plugins := str_split plugins;
            dict_toolbar := toolbar;
            dict_content_css := "default";
            dict_relative_urls := false;
            dict_remove_script_host := false;
            dict_convert_urls := true;
            dict_branding := false;
            dict_promotion := false;
            dict_referrer_policy := "origin" |}
  end end end end.

Definition get_js_url (self : instance) : result (option string) :=
  match get_api_key self with
  | Raise e => Raise e
  | Ok api_key =>
      if truthy api_key
      then Ok (Some ("https://cdn.tiny.cloud/1/" +:+ api_key +:+ "/tinymce/7/tinymce.min.js"))
      else Ok None
  end.

(** ** [blog/admin.py]: the editor settings of the post pages *)

(** What [PostAdmin.change_view] and [PostAdmin.add_view] add to
    [extra_context] before they call the base view: nothing, or the keys
    [tinymce_config] and [tinymce_js_url]. *)
Definition PostAdmin_extra_context : M (option (tinymce_config_dict * option string)) :=
  do tinymce_config <- get_tinymce_config;
  match tinymce_config with
  | Some tinymce_config =>
      do config_dict <- lift (get_config_dict tinymce_config);
      do js_url <- lift (get_js_url tinymce_config);
      ret (Some (config_dict, js_url))
  | None => ret None
  end.

(** ** [settings_config/admin.py] *)

(** [django.utils.timezone.now()]. *)
Definition timezone_now : M Z := fun w => (Ok (clock w), w).

(** A message flashed to the administrator. *)
Inductive flash :=
  | FlashError (text : string)
  | FlashSuccess (text : string).

(** [HttpResponseRedirect(reverse(name, args=[arg]))]. *)
Record redirect := { url_name : string; url_arg : option Z }.

(** [model._meta.model_name]. *)
Definition model_name (k : kind) : string :=
  match k with
  | Stripe => "stripeconfiguration"
  | Resend => "resendconfiguration"
  | TinyMCE => "tinymceconfiguration"
  | Cloudinary => "cloudinaryconfiguration"
  end.

Module SingletonModelAdmin.

(** [self.model.objects.exists()]. *)
Definition objects_exists (model : kind) : M bool :=
  fun w => (Ok (negb (Nat.eqb (size (filter (fun kv => kv.1.1 = model) (tables w))) 0)), w).

Definition has_add_permission (model : kind) : M bool :=
  do some <- objects_exists model;
  ret (negb some).

Definition has_delete_permission (model : kind) : bool := false.

Definition changelist_view (model : kind) : M redirect :=
  do r <- SingletonModel.get_or_create model 1;
  let obj := r.1 in
  ret {| url_name := "admin:settings_config_" +:+ model_name model +:+ "_change";
         url_arg := pk obj |}.

End SingletonModelAdmin.

(** Assignment to [last_test_status] and [last_test_at]: fields of a Resend
    instance; on an instance of another class the assignment makes a plain
    attribute that no field stores. *)
Definition set_last_test_status (v : string) (i : instance) : instance :=
  match attrs i with
  | FResend c =>
      Instance (pk i) (FResend {|
        resend_is_active := resend_is_active c; resend_api_key := resend_api_key c;
        from_email := from_email c; from_name := from_name c;
        last_test_at := last_test_at c; last_test_status := v |})
  | _ => i
  end.

Definition set_last_test_at (v : option Z) (i : instance) : instance :=
  match attrs i with
  | FResend c =>
      Instance (pk i) (FResend {|
        resend_is_active := resend_is_active c; resend_api_key := resend_api_key c;
        from_email := from_email c; from_name := from_name c;
        last_test_at := v; last_test_status := last_test_status c |})
  | _ => i
  end.

Module ResendConfigurationAdmin.

(** [self.get_object(request, pk)]: the row, or [None]. *)
Definition get_object (key : Z) : M (option instance) :=
  fun w => (Ok (tables w !! (Resend, key)), w).

Definition change_redirect (key : Z) : redirect :=
  {| url_name := "admin:settings_config_resendconfiguration_change"; url_arg := Some key |}.

(** [test_email] is [request.POST.get("test_email", "")]. *)
Definition send_test_email_view (key : Z) (test_email : string) : M (list flash * redirect) :=
  do config <- get_object key;
  if negb (truthy test_email) then
    ret ([FlashError "Please provide a test email address."], change_redirect key)
  else
    do config <- match config with
                 | Some config => ret config
                 | None => lift (no_attribute "api_key")
                 end;
    do r <- send_test_email config test_email;
    let success := r.1 in
    let message := r.2 in
    if success then
      let config := set_last_test_status "success" config in
      do now <- timezone_now;
      let config := set_last_test_at (Some now) config in
      do _ <- SingletonModel.save config;
      ret ([FlashSuccess message], change_redirect key)
    else
      let config := set_last_test_status "failed" config in
      do _ <- SingletonModel.save config;
      ret ([FlashError message], change_redirect key).

End ResendConfigurationAdmin.

(** ** [blog/models.py] and [blog/forms.py] *)

Record Category := {
  category_pk : option Z;
  category_name : string;
  category_slug : string;
  category_description : string;
}.

Record Tag := {
  tag_pk : option Z;
  tag_name : string;
  tag_slug : string;
}.

(** [status] is a character field: any string, of which the code tests
    [published]; [author] and [category] hold the keys of the related rows. *)
Record Post := {
  post_pk : option Z;
  post_title : string;
  post_slug : string;
  post_excerpt : string;
  post_content : string;
  featured_image_url : string;
  author : option Z;
  category : option Z;
  post_status : string;
  is_featured : bool;
  published_at : option Z;
  meta_title : string;
  meta_description : string;
}.

Definition set_category_slug (v : string) (c : Category) : Category :=
  {| category_pk := category_pk c; category_name := category_name c;
     category_slug := v; category_description := category_description c |}.

Definition set_tag_slug (v : string) (t : Tag) : Tag :=
  {| tag_pk := tag_pk t; tag_name := tag_name t; tag_slug := v |}.

Definition set_post_slug (v : string) (p : Post) : Post :=
  {| post_pk := post_pk p; post_title := post_title p; post_slug := v;
     post_excerpt := post_excerpt p; post_content := post_content p;
     featured_image_url := featured_image_url p; author := author p;
     category := category p; post_status := post_status p;
     is_featured := is_featured p; published_at := published_at p;
     meta_title := meta_title p; meta_description := meta_description p |}.

Definition set_published_at (v : option Z) (p : Post) : Post :=
  {| post_pk := post_pk p; post_title := post_title p; post_slug := post_slug p;
     post_excerpt := post_excerpt p; post_content := post_content p;
     featured_image_url := featured_image_url p; author := author p;
     category := category p; post_status := post_status p;
     is_featured := is_featured p; published_at := v;
     meta_title := meta_title p; meta_description := meta_description p |}.

Definition set_featured_image_url (v : string) (p : Post) : Post :=
  {| post_pk := post_pk p; post_title := post_title p; post_slug := post_slug p;
     post_excerpt := post_excerpt p; post_content := post_content p;
     featured_image_url := v; author := author p; category := category p;
     post_status := post_status p;
     is_featured := is_featured p; published_at := published_at p;
     meta_title := meta_title p; meta_description := meta_description p |}.

Section Blog.

(** Django's [slugify], the base [Model.save] and the form's [save_m2m]
    are the framework's: the blog code is modelled over any of them. *)
Variable slugify : string -> string.
Variable Model_save : forall A : Type, A -> M A.
Variable save_m2m : M unit.

Definition Category_save (self : Category) : M Category :=
  let self := if negb (truthy (category_slug self))
              then set_category_slug (slugify (category_name self)) self
              else self in
  Model_save Category self.

Definition Tag_save (self : Tag) : M Tag :=
  let self := if negb (truthy (tag_slug self))
              then set_tag_slug (slugify (tag_name self)) self
              else self in
  Model_save Tag self.

Definition Post_save (self : Post) : M Post :=
  let self := if negb (truthy (post_slug self))
              then set_post_slug (slugify (post_title self)) self
              else self in
  do self <- (if String.eqb (post_status self) "published"
                 && negb (bool_decide (is_Some (published_at self)))
              then do now <- timezone_now; ret (set_published_at (Some now) self)
              else ret self);
  Model_save Post self.

(** [PostAdminForm.save]: [instance] is what the base form builds from the
    submitted data, [featured_image_file] the name of the cleaned upload. *)
Definition PostAdminForm_save (instance : Post) (featured_image_file : option string)
    (commit : bool) : M Post :=
  do instance <-
    match featured_image_file with
    | Some file =>
        if truthy file then
          do url <- upload_to_cloudinary file (Some "blog/featured") None 30;
          match url with
          | Some url =>
              if truthy url then ret (set_featured_image_url url instance) else ret instance
          | None => ret instance
          end
        else ret instance
    | None => ret instance
    end;
  if commit then
    do instance <- Post_save instance;
    save_m2m;;
    ret instance
  else ret instance.

End Blog.

(** ** Vocabulary of the further properties *)

(** The worlds the application can be in: start-up, then any sequence of
    [save], [delete], [load], the passing of time, and steps that leave the
    settings tables, the cache and the clock alone. *)
Inductive reachable : world -> Prop :=
  | reach_startup n : reachable (startup n)
  | reach_save self w : reachable w -> reachable (SingletonModel.save self w).2
  | reach_delete self w : reachable w -> reachable (SingletonModel.delete self w).2
  | reach_load k w : reachable w -> reachable (SingletonModel.load k w).2
  | reach_advance d w : 0 <= d -> reachable w -> reachable (advance d w)
  | reach_other w w' :
      reachable w -> tables w' = tables w -> cache w' = cache w -> clock w' = clock w ->
      reachable w'.

(** Every row sits at key 1 and carries that key. *)
Definition keyed (w : world) : Prop :=
  forall k z r, tables w !! (k, z) = Some r -> z = 1 /\ pk r = Some 1.

(** Every cache entry of a model, expired or not, is the stored row. *)
Definition coherent (w : world) : Prop :=
  forall k v e,
    cache w !! SingletonModel.cache_key k = Some (v, e) -> tables w !! (k, 1) = Some v.

(** The record a model has before anything was saved. *)
Definition default_instance (k : kind) : instance := Instance (Some 1) (default_fields k).

(** The three invariants of the settings store together. *)
Definition settled (w : world) : Prop := typed w /\ keyed w /\ coherent w.

(** The character is none of Python's whitespace characters. *)
Definition visible (ch : uchar) : bool := negb (isspace (code_point ch)).

(** A name of a split: at least one character, none of them whitespace. *)
Definition is_name (run : list uchar) : Prop :=
  run <> [] /\ Forall (fun ch => visible ch = true) run.

(** A text cut at its whitespace: the names are its maximal runs of
    characters that are not whitespace, in order; whitespace before, between
    and after them is dropped. *)
Inductive cut_at_whitespace : list uchar -> list (list uchar) -> Prop :=
  | cut_empty : cut_at_whitespace [] []
  | cut_space sp l runs :
      visible sp = false -> cut_at_whitespace l runs -> cut_at_whitespace (sp :: l) runs
  | cut_last run : is_name run -> cut_at_whitespace run [run]
  | cut_run run sp l runs :
      is_name run -> visible sp = false -> cut_at_whitespace l runs ->
      cut_at_whitespace (run ++ sp :: l) (run :: runs).

(** A stored URL of the media host: [<pre>/upload/<version>/<id>.<ext>],
    where [version] starts with [v], no segment before [upload] is
    [upload], and [ext] has neither a dot nor a slash. *)
Definition hosted_url (url : string) (pre : list string) (version : string)
    (rest : list string) (id ext : string) : Prop :=
  url = String.concat "/" (pre ++ "upload" :: version :: rest)%list /\
  Forall (fun segment => free_of "/" segment = true) (pre ++ version :: rest)%list /\
  ("upload" ∉ pre) /\
  (exists a b, url = a +:+ "cloudinary.com" +:+ b) /\
  (exists digits, version = String "v" digits) /\
  String.concat "/" rest = id +:+ "." +:+ ext /\
  free_of "." ext = true /\ free_of "/" ext = true.

(** The instance the hook returns after an upload that gave [url]. *)
Definition after_upload (url : option string) (instance : User) : User :=
  match url with
  | Some url =>
      if truthy url
      then {| user_pk := user_pk instance; username := username instance;
              email := email instance;
              profile_picture := None; profile_picture_url := url |}
      else instance
  | None => instance
  end.

(** What [upload_to_cloudinary] reads off the host's answer. *)
Definition secure_url_of (o : upload_outcome) : option string :=
  match o with
  | UploadReturns secure_url => secure_url
  | UploadRaises _ => None
  end.

(** ** Further sample worlds *)

Definition sample_resend_fields : ResendConfiguration := {|
  resend_is_active := true; resend_api_key := "re_123";
  from_email := "noreply@example.com"; from_name := "Turbo";
  last_test_at := None; last_test_status := "" |}.

Definition sample_cloudinary_fields : CloudinaryConfiguration := {|
  cloudinary_is_active := true; cloud_name := "demo";
  cloudinary_api_key := "key"; api_secret := "secret";
  default_folder := "uploads"; auto_optimize := true |}.

(** A Resend record with an API key and no sender address. *)
Definition resend_without_sender : ResendConfiguration := {|
  resend_is_active := true; resend_api_key := "re_123";
  from_email := ""; from_name := "";
  last_test_at := None; last_test_status := "" |}.

(** A media host that confirms every destroy and refuses every upload. *)
Definition uploads_refused : remote := {|
  post_answer := fun _ _ => PostFails "connection refused";
  upload_answer := fun _ _ _ => UploadRaises "upload refused";
  destroy_answer := fun _ _ => DestroyReturns (Some "ok") |}.

Definition media_world_uploads_refused : world :=
  World 0 {[ (Cloudinary, 1) := Instance (Some 1) (attrs sample_cloudinary) ]}
        {[ 5 := sample_stored_user ]} ∅ None [] uploads_refused.

(** A user submitted under a key that no row has. *)
Definition sample_unknown_user : User := {|
  user_pk := Some 9; username := "eve"; email := "eve@example.com";
  profile_picture := Some "eve.png"; profile_picture_url := "" |}.

(** The stored picture of the replacement case: version [v1], identifier
    [folder/abc]. *)
Definition replaced_url : string :=
  "https://res.cloudinary.com/demo/image/upload/v1/folder/abc.jpg".

Definition replaced_stored_user : User := {|
  user_pk := Some 5; username := "bob"; email := "bob@example.com";
  profile_picture := Some "old.png"; profile_picture_url := replaced_url |}.

Definition replaced_changed_user : User :=
  set_profile_picture (Some "new.png") replaced_stored_user.

Definition replacement_world : world :=
  World 0 {[ (Cloudinary, 1) := Instance (Some 1) (attrs sample_cloudinary) ]}
        {[ 5 := replaced_stored_user ]} ∅ None [] cloudinary_up.

(** A picture without a version segment in a folder whose name starts with
    [v], and one without an extension under a folder with a dot. *)
Definition folder_like_version_url : string :=
  "https://res.cloudinary.com/demo/image/upload/vacation/beach.jpg".

Definition dotted_folder_url : string :=
  "https://res.cloudinary.com/demo/image/upload/v1/my.folder/abc".

(** A plugins field padded with a tab, spaces, a no-break space ([U+00A0],
    bytes [C2 A0]) and an em space ([U+2003], bytes [E2 80 83]). *)
Definition padded_plugins : string :=
  "  advlist"
  +:+ String "194" (String "160"
        ("autolink"
         +:+ String "226" (String "128" (String "131"
               ("lists" +:+ String "009" "link "))))).

Definition sample_post : Post := {|
  post_pk := None; post_title := "Hello World"; post_slug := "";
  post_excerpt := ""; post_content := "<p>Hi</p>";
  featured_image_url := "https://example.com/typed.jpg";
  author := Some 5; category := None;
  post_status := "published"; is_featured := false; published_at := None;
  meta_title := ""; meta_description := "" |}.

(** ** The singleton store *)

Section Singleton.

Import SingletonModel.

Lemma cache_key_inj k1 k2 : cache_key k1 = cache_key k2 -> k1 = k2.
Proof. destruct k1, k2; vm_compute; congruence. Qed.

Lemma class_of_Instance p a : class_of (Instance p a) = kind_of_fields a.
Proof. reflexivity. Qed.

Lemma save_eq self w :
  save self w =
    (Ok (Instance (Some 1) (attrs self)),
     set_cache (base.delete (cache_key (class_of self)) (cache w))
       (set_tables (<[(class_of self, 1) := Instance (Some 1) (attrs self)]> (tables w)) w)).
Proof. reflexivity. Qed.

Lemma delete_eq self z w :
  pk self = Some z ->
  delete self w =
    (Ok (Instance None (attrs self)),
     set_tables (base.delete (class_of self, z) (tables w))
       (set_cache (base.delete (cache_key (class_of self)) (cache w)) w)).
Proof.
  intros Hpk. unfold delete, clear_cache, cache_delete, Model_delete, bind.
  simpl. by rewrite Hpk.
Qed.

Lemma cache_get_eq k w :
  cache_get (cache_key k) w =
    (Ok (cached k w),
     match cache w !! cache_key k with
     | Some (_, expiry) =>
         if expiry <=? clock w then set_cache (base.delete (cache_key k) (cache w)) w else w
     | None => w
     end).
Proof.
  unfold cache_get, cached.
  destruct (cache w !! cache_key k) as [[v e]|]; [|done].
  by destruct (e <=? clock w).
Qed.

(** A hit: the cached copy, and nothing changes. *)
Lemma load_hit k w v :
  cached k w = Some v -> load k w = (Ok v, w).
Proof.
  intros H. unfold load, bind. rewrite cache_get_eq, H.
  unfold cached in H.
  destruct (cache w !! cache_key k) as [[v' e]|]; [|done].
  by destruct (e <=? clock w).
Qed.

Lemma get_or_create_row k w row :
  tables w !! (k, 1) = Some row -> get_or_create k 1 w = (Ok (row, false), w).
Proof. intros H. unfold get_or_create. by rewrite H. Qed.

Lemma get_or_create_new k w :
  tables w !! (k, 1) = None ->
  get_or_create k 1 w =
    (Ok (Instance (Some 1) (default_fields k), true),
     set_cache (base.delete (cache_key k) (cache w))
       (set_tables (<[(k, 1) := Instance (Some 1) (default_fields k)]> (tables w)) w)).
Proof.
  intros H. unfold get_or_create. rewrite H. unfold bind. rewrite save_eq.
  by destruct k.
Qed.

(** After its [cache.get], a missing [load] continues from a world whose
    cache has no entry under the key. *)
Lemma load_miss k w :
  cached k w = None ->
  load k w =
    (do r <- get_or_create k 1;
     cache_set (cache_key k) r.1 300;;
     ret r.1) (set_cache (base.delete (cache_key k) (cache w)) w).
Proof.
  intros H. unfold load. unfold bind at 1. rewrite cache_get_eq, H.
  unfold cached in H.
  destruct (cache w !! cache_key k) as [[v' e]|] eqn:Hc.
  - by destruct (e <=? clock w).
  - rewrite delete_id by done. by destruct w.
Qed.

(** A miss on an existing row. *)
Lemma load_miss_row k w row :
  cached k w = None -> tables w !! (k, 1) = Some row ->
  load k w =
    (Ok row, set_cache (<[cache_key k := (row, clock w + 300)]> (cache w)) w).
Proof.
  intros H Hrow. rewrite load_miss by done.
  unfold bind. rewrite (get_or_create_row _ _ row) by done.
  unfold cache_set, ret, set_cache. simpl. by rewrite insert_delete_eq.
Qed.

(** A miss on an empty table: the defaults are stored, then cached. *)
Lemma load_miss_create k w :
  cached k w = None -> tables w !! (k, 1) = None ->
  load k w =
    (Ok (Instance (Some 1) (default_fields k)),
     set_cache (<[cache_key k := (Instance (Some 1) (default_fields k), clock w + 300)]> (cache w))
       (set_tables (<[(k, 1) := Instance (Some 1) (default_fields k)]> (tables w)) w)).
Proof.
  intros H Hrow. rewrite load_miss by done.
  unfold bind. rewrite get_or_create_new by done.
  unfold cache_set, ret, set_cache, set_tables. simpl.
  by rewrite delete_delete_eq, insert_delete_eq.
Qed.

(** *** The typing discipline is an invariant *)

Lemma typed_intro w :
  (forall k z r, tables w !! (k, z) = Some r -> class_of r = k) ->
  (forall k v e, cache w !! cache_key k = Some (v, e) -> class_of v = k) ->
  typed w.
Proof. by split. Qed.

Lemma typed_empty t u s c n : typed (World t ∅ u ∅ s c n).
Proof. by apply typed_intro; simpl; intros *; rewrite lookup_empty. Qed.

Lemma typed_set_calls w l : typed w -> typed (set_calls l w).
Proof. by intros [??]. Qed.

Lemma typed_set_sdk_config w c : typed w -> typed (set_sdk_config c w).
Proof. by intros [??]. Qed.

Lemma typed_advance w d : typed w -> typed (advance d w).
Proof. by intros [??]. Qed.

Lemma typed_cache_delete w key :
  typed w -> typed (set_cache (base.delete key (cache w)) w).
Proof.
  intros [Ht Hc]. apply typed_intro; simpl; [done|].
  intros k v e [_ H]%lookup_delete_Some. eauto.
Qed.

Lemma typed_cache_insert w k v e :
  typed w -> class_of v = k ->
  typed (set_cache (<[cache_key k := (v, e)]> (cache w)) w).
Proof.
  intros [Ht Hc] Hv. apply typed_intro; simpl; [done|].
  intros k' v' e' [[Hk [= <- <-]]|[_ H]]%lookup_insert_Some; [|by eauto].
  apply cache_key_inj in Hk. by subst.
Qed.

Lemma typed_table_insert w k z r :
  typed w -> class_of r = k ->
  typed (set_tables (<[(k, z) := r]> (tables w)) w).
Proof.
  intros [Ht Hc] Hr. apply typed_intro; simpl; [|done].
  intros k' z' r' [[[= <- <-] <-]|[_ H]]%lookup_insert_Some; by eauto.
Qed.

Lemma typed_table_delete w key :
  typed w -> typed (set_tables (base.delete key (tables w)) w).
Proof.
  intros [Ht Hc]. apply typed_intro; simpl; [|done].
  intros k z r [_ H]%lookup_delete_Some. eauto.
Qed.

Lemma typed_save self w : typed w -> typed (save self w).2.
Proof.
  intros H. rewrite save_eq. simpl.
  apply (typed_cache_delete (set_tables _ w)).
  by apply typed_table_insert.
Qed.

Lemma typed_delete self w : typed w -> typed (delete self w).2.
Proof.
  intros H. destruct (pk self) as [z|] eqn:Hpk.
  - rewrite (delete_eq _ z) by done. simpl.
    apply (typed_table_delete (set_cache _ w)). by apply typed_cache_delete.
  - unfold delete, clear_cache, cache_delete, Model_delete, bind. simpl.
    rewrite Hpk. simpl. by apply typed_cache_delete.
Qed.

Lemma cached_typed k w v : typed w -> cached k w = Some v -> class_of v = k.
Proof.
  intros [_ Hc]. unfold cached.
  destruct (cache w !! cache_key k) as [[v' e]|] eqn:E; [|done].
  destruct (e <=? clock w); [done|]. intros [= <-]. eauto.
Qed.

(** [load] always returns an instance of the class it is called on, and
    touches nothing but the settings store. *)
Lemma load_typed k w :
  typed w ->
  exists r w',
    load k w = (Ok r, w') /\ class_of r = k /\ typed w' /\
    same_outside_settings w w' /\ sdk_config w' = sdk_config w.
Proof.
  intros H. destruct (cached k w) as [v|] eqn:Hc.
  - exists v, w. rewrite (load_hit _ _ v) by done.
    split_and!; eauto using cached_typed. by unfold same_outside_settings.
  - destruct (tables w !! (k, 1)) as [row|] eqn:Hrow.
    + eexists _, _. rewrite (load_miss_row _ _ row) by done.
      assert (class_of row = k) by (destruct H as [Ht _]; eauto).
      split_and!; [done|done|by apply typed_cache_insert|done|done].
    + eexists _, _. rewrite load_miss_create by done.
      assert (class_of (Instance (Some 1) (default_fields k)) = k) by by destruct k.
      split_and!; [done|done| |done|done].
      apply (typed_cache_insert (set_tables _ w)); [|done].
      by apply typed_table_insert.
Qed.

End Singleton.

(** ** Claims on the singleton store *)

Section SingletonClaims.

Import SingletonModel.

Lemma cached_after_save self w d :
  cached (class_of self) (advance d (save self w).2) = None.
Proof. rewrite save_eq. unfold cached. simpl. by rewrite lookup_delete_eq. Qed.

(** C1.  A save writes the record under the fixed key and then drops the
    cache entry of its model whatever the cache held; a load that follows,
    however much later, returns the record just saved, so never the values
    from before the save. *)
Theorem save_then_load_returns_saved (self : instance) (w : world) :
  let saved := Instance (Some 1) (attrs self) in
  let w1 := (save self w).2 in
  (save self w).1 = Ok saved /\
  tables w1 = <[(class_of self, 1) := saved]> (tables w) /\
  cache w1 = base.delete (cache_key (class_of self)) (cache w) /\
  forall d, (load (class_of self) (advance d w1)).1 = Ok saved.
Proof.
  intros saved w1. split_and!; try done.
  intros d.
  rewrite (load_miss_row _ _ saved); [done|apply cached_after_save|].
  subst w1. rewrite save_eq. simpl. apply lookup_insert_eq.
Qed.

Lemma only_fixed_key_save k self w :
  only_fixed_key k w -> only_fixed_key k (save self w).2.
Proof.
  intros H z. rewrite save_eq. simpl.
  intros [r [[[= _ <-] _]|[_ Hr]]%lookup_insert_Some]; [done|]. by apply H.
Qed.

Lemma only_fixed_key_delete k self w :
  only_fixed_key k w -> only_fixed_key k (delete self w).2.
Proof.
  intros H z. destruct (pk self) as [p|] eqn:Hpk.
  - rewrite (delete_eq _ p) by done. simpl.
    intros [r [_ Hr]%lookup_delete_Some]. by apply H.
  - unfold delete, clear_cache, cache_delete, Model_delete, bind. simpl.
    rewrite Hpk. simpl. apply H.
Qed.

Lemma only_fixed_key_load k k' w :
  only_fixed_key k w -> only_fixed_key k (load k' w).2.
Proof.
  intros H z. destruct (cached k' w) as [v|] eqn:Hc.
  - rewrite (load_hit _ _ v) by done. apply H.
  - destruct (tables w !! (k', 1)) as [row|] eqn:Hrow.
    + rewrite (load_miss_row _ _ row) by done. apply H.
    + rewrite load_miss_create by done. simpl.
      intros [r [[[= _ <-] _]|[_ Hr]]%lookup_insert_Some]; [done|]. by apply H.
Qed.

Lemma rows_of_fixed_key k w row :
  only_fixed_key k w -> tables w !! (k, 1) = Some row ->
  rows_of k w = {[ (k, 1) := row ]}.
Proof.
  intros Hfix Hrow. apply map_eq. intros [k' z]. unfold rows_of.
  destruct (decide ((k, 1) = (k', z))) as [[= <- <-]|Hne].
  - rewrite lookup_singleton_eq. by apply map_lookup_filter_Some.
  - rewrite lookup_singleton_ne by done. apply eq_None_not_Some.
    intros [x [Hx Hk]%map_lookup_filter_Some]. simpl in Hk. subst k'.
    apply Hne. f_equal. symmetry. apply Hfix. eauto.
Qed.

Lemma save_all_rows k l w :
  Forall (fun self => class_of self = k) l -> only_fixed_key k w ->
  (save_all l w).1 = Ok tt /\
  only_fixed_key k (save_all l w).2 /\
  tables (save_all l w).2 !! (k, 1) =
    match last l with
    | Some self => Some (Instance (Some 1) (attrs self))
    | None => tables w !! (k, 1)
    end.
Proof.
  intros Hl. revert w. induction Hl as [|self l Hself Hl IH]; intros w Hfix; [done|].
  specialize (IH _ (only_fixed_key_save k self w Hfix)).
  assert (Hstep : save_all (self :: l) w = save_all l (save self w).2) by done.
  rewrite Hstep. destruct IH as (H1 & H2 & H3). split_and!; [done|done|].
  rewrite H3. destruct l as [|self' l'].
  2: { change (last (self :: self' :: l')) with (last (self' :: l')).
       destruct (last (self' :: l')) eqn:E; [done|]. by apply last_None in E. }
  rewrite save_eq. simpl. rewrite Hself. apply lookup_insert_eq.
Qed.

(** C2.  From a store in which the model has no row off the fixed key
    (the empty store in particular), any non-empty sequence of saves of
    that model, whatever primary keys the records carry, succeeds and
    leaves exactly one row of the model: the last record saved, stored
    under key 1. *)
Theorem saves_leave_one_row_at_fixed_key (k : kind) (l : list instance) (w : world) :
  Forall (fun self => class_of self = k) l -> l <> [] -> only_fixed_key k w ->
  exists self,
    last l = Some self /\
    (save_all l w).1 = Ok tt /\
    rows_of k (save_all l w).2 = {[ (k, 1) := Instance (Some 1) (attrs self) ]} /\
    size (rows_of k (save_all l w).2) = 1%nat.
Proof.
  intros Hl Hne Hfix.
  destruct (save_all_rows k l w Hl Hfix) as (H1 & H2 & H3).
  destruct (last l) as [self|] eqn:Hlast.
  - exists self. split_and!; [done|done| |].
    + by apply rows_of_fixed_key.
    + rewrite (rows_of_fixed_key _ _ _ H2 H3). apply map_size_singleton.
  - by apply last_None in Hlast.
Qed.

Lemma cached_advance_fresh k w r d :
  cache w !! cache_key k = Some (r, clock w + 300) ->
  cached k (advance d w) = if 300 <=? d then None else Some r.
Proof.
  intros H. unfold cached. simpl. rewrite H.
  destruct (Z.leb_spec 300 d), (Z.leb_spec (clock w + 300) (clock w + d)); done || lia.
Qed.

(** C8.  An unexpired cache entry is returned as it is and nothing is
    touched, the store included.  Without one, load reads the row at key 1,
    creating the default row when there is none, and caches the result with
    an expiry 300 seconds ahead: for less than 300 seconds the following
    loads return that copy, and from 300 seconds on a load returns what the
    store holds at that time. *)
Theorem load_caches_for_300_seconds (k : kind) (w : world) :
  (forall v e, cache w !! cache_key k = Some (v, e) -> clock w < e ->
     load k w = (Ok v, w)) /\
  ((forall v e, cache w !! cache_key k = Some (v, e) -> e <= clock w) ->
     let r := default (Instance (Some 1) (default_fields k)) (tables w !! (k, 1)) in
     let w1 := (load k w).2 in
     (load k w).1 = Ok r /\
     tables w1 = <[(k, 1) := r]> (tables w) /\
     cache w1 !! cache_key k = Some (r, clock w + 300) /\
     (forall d, 0 <= d < 300 -> load k (advance d w1) = (Ok r, advance d w1)) /\
     (forall d t, 300 <= d ->
        (load k (set_tables t (advance d w1))).1 =
          Ok (default (Instance (Some 1) (default_fields k)) (t !! (k, 1))))).
Proof.
  split.
  - intros v e Hc Hlt. apply load_hit. unfold cached. rewrite Hc.
    by destruct (Z.leb_spec e (clock w)); [lia|].
  - intros Hexp r w1.
    assert (Hmiss : cached k w = None).
    { unfold cached. destruct (cache w !! cache_key k) as [[v e]|] eqn:Hc; [|done].
      specialize (Hexp v e eq_refl). by destruct (Z.leb_spec e (clock w)); [|lia]. }
    assert (Hw1 : (load k w).1 = Ok r /\ tables w1 = <[(k, 1) := r]> (tables w) /\
                  cache w1 !! cache_key k = Some (r, clock w + 300) /\ clock w1 = clock w).
    { subst r w1. destruct (tables w !! (k, 1)) as [row|] eqn:Hrow.
      - rewrite (load_miss_row _ _ row) by done. simpl.
        split_and!; [done|by rewrite insert_id|apply lookup_insert_eq|done].
      - rewrite load_miss_create by done. simpl.
        split_and!; [done|done|apply lookup_insert_eq|done]. }
    destruct Hw1 as (H1 & H2 & H3 & H4). rewrite <- H4 in H3.
    split_and!; [done|done|by rewrite <- H4| |].
    + intros d Hd. apply load_hit. rewrite (cached_advance_fresh _ _ r) by done.
      by destruct (Z.leb_spec 300 d); [lia|].
    + intros d t Hd.
      assert (Hm : cached k (set_tables t (advance d w1)) = None).
      { change (cached k (set_tables t (advance d w1))) with (cached k (advance d w1)).
        rewrite (cached_advance_fresh _ _ r) by done.
        by destruct (Z.leb_spec 300 d); [|lia]. }
      destruct (t !! (k, 1)) as [row|] eqn:Hrow.
      * by rewrite (load_miss_row _ _ row).
      * by rewrite load_miss_create.
Qed.

End SingletonClaims.

(** ** The gateway accessors *)

Section Gateway.

Import SingletonModel.

Lemma get_config_spec k w :
  typed w ->
  exists r w',
    load k w = (Ok r, w') /\ class_of r = k /\ typed w' /\
    same_outside_settings w w' /\ sdk_config w' = sdk_config w /\
    get_config k w = (Ok (if configured r then Some r else None), w').
Proof.
  intros Hw. destruct (load_typed k w Hw) as (r & w' & Hload & Hk & Hw' & Hsame & Hsdk).
  exists r, w'. split_and!; try done.
  destruct r as [p [c|c|c|c]]; unfold class_of in Hk; simpl in Hk; subst k;
    unfold get_config, get_stripe_config, get_resend_config, get_tinymce_config,
      get_cloudinary_config, bind; rewrite Hload;
    unfold configured, required_fields_present, is_active; simpl.
  - destruct (stripe_is_active c); [|done]. by destruct (truthy (secret_key c)).
  - destruct (resend_is_active c); [|done]. by destruct (truthy (resend_api_key c)).
  - destruct (tinymce_is_active c); [|done]. by destruct (truthy (tinymce_api_key c)).
  - destruct (cloudinary_is_active c); [|done].
    destruct (truthy (cloud_name c)); [|done].
    destruct (truthy (cloudinary_api_key c)); [|done].
    by destruct (truthy (api_secret c)).
Qed.

(** C3.  Each accessor loads the record of its model and returns it exactly
    when the record is active and each field its integration requires is
    non-empty (Stripe: [secret_key]; Resend and TinyMCE: [api_key];
    Cloudinary: [cloud_name], [api_key], [api_secret]); otherwise it
    returns [None].  It never raises. *)
Theorem gateway_returns_record_iff_configured (k : kind) (w : world) :
  typed w ->
  exists r w',
    load k w = (Ok r, w') /\
    get_config k w = (Ok (if configured r then Some r else None), w') /\
    (forall c, (get_config k w).1 = Ok (Some c) <-> c = r /\ configured r = true) /\
    ((get_config k w).1 = Ok None <-> configured r = false).
Proof.
  intros Hw. destruct (get_config_spec k w Hw) as (r & w' & Hload & _ & _ & _ & _ & Hget).
  exists r, w'. rewrite Hget. simpl. split_and!; [done|done| |].
  - intros c. destruct (configured r); split.
    + by intros [= ->].
    + by intros [-> _].
    + done.
    + by intros [_ ?].
  - by destruct (configured r).
Qed.

(** The cloudinary accessor, as the helpers below use it. *)
Lemma get_cloudinary_config_spec w :
  typed w ->
  exists o w',
    get_cloudinary_config w = (Ok o, w') /\ typed w' /\
    same_outside_settings w w' /\
    match o with
    | Some config => exists p c, config = Instance p (FCloudinary c)
    | None => True
    end.
Proof.
  intros Hw.
  destruct (get_config_spec Cloudinary w Hw) as (r & w' & _ & Hk & Hw' & Hsame & _ & Hget).
  eexists _, w'. split_and!; [exact Hget|done|done|].
  destruct (configured r); [|done].
  destruct r as [p [c|c|c|c]]; try done. by exists p, c.
Qed.

Lemma get_resend_config_spec w :
  typed w ->
  exists o w',
    get_resend_config w = (Ok o, w') /\ typed w' /\
    same_outside_settings w w' /\
    match o with
    | Some config =>
        exists p c, config = Instance p (FResend c) /\ truthy (resend_api_key c) = true
    | None => True
    end.
Proof.
  intros Hw.
  destruct (get_config_spec Resend w Hw) as (r & w' & _ & Hk & Hw' & Hsame & _ & Hget).
  eexists _, w'. split_and!; [exact Hget|done|done|].
  destruct (configured r) eqn:Hc; [|done].
  destruct r as [p [c|c|c|c]]; try done. exists p, c. split; [done|].
  unfold configured in Hc. by apply andb_prop in Hc as [_ ?].
Qed.

End Gateway.

(** ** Upload, delete and the pre-save hook *)

Section Media.

Lemma configure_cloudinary_instance p c w :
  configure (Instance p (FCloudinary c)) w =
    (Ok tt, set_sdk_config (Some (cloud_name c, cloudinary_api_key c, api_secret c)) w).
Proof. reflexivity. Qed.

Lemma upload_to_cloudinary_spec file folder w :
  typed w -> truthy folder = true ->
  exists url w',
    upload_to_cloudinary file (Some folder) None 30 w = (Ok url, w') /\ typed w' /\
    clock w' = clock w /\ users w' = users w /\ net w' = net w /\
    ((calls w' = calls w /\ url = None) \/
     exists p,
       up_folder p = folder /\ up_resource_type p = "image" /\ up_timeout p = 30 /\
       calls w' = (calls w ++ [UploaderUpload file p])%list /\
       url = match upload_answer (net w) (calls w) file p with
             | UploadReturns u => u
             | UploadRaises _ => None
             end).
Proof.
  intros Hw Hfolder.
  destruct (get_cloudinary_config_spec w Hw) as (o & w1 & Hget & Hw1 & (Hc & Hu & Hcalls & Hnet) & Ho).
  unfold upload_to_cloudinary. unfold bind at 1. rewrite Hget.
  destruct o as [config|].
  2: { exists None, w1. split_and!; try done. by left. }
  destruct Ho as (p & c & ->).
  unfold try_except, bind. rewrite configure_cloudinary_instance. rewrite Hfolder.
  simpl.
  match goal with |- context [uploader_upload file ?q] => set (params := q) end.
  unfold uploader_upload. simpl. rewrite Hnet, Hcalls.
  destruct (upload_answer (net w) (calls w) file params) as [u|msg] eqn:Hans.
  - eexists u, _. split_and!; [done| |done|done|done|].
    + by apply typed_set_calls, typed_set_sdk_config.
    + right. exists params. by rewrite Hans.
  - eexists None, _. split_and!; [done| |done|done|done|].
    + by apply typed_set_calls, typed_set_sdk_config.
    + right. exists params. by rewrite Hans.
Qed.

Lemma index_found x pre tl :
  x ∉ pre -> Py.index x (pre ++ x :: tl) = Ok (List.length pre).
Proof.
  induction pre as [|y pre IH]; intros Hnot; simpl.
  - by rewrite String.eqb_refl.
  - apply not_elem_of_cons in Hnot as [Hne Hnot].
    destruct (String.eqb_spec y x) as [->|_]; [done|]. by rewrite IH.
Qed.

Lemma index_raises x l : x ∉ l -> exists e, Py.index x l = Raise e.
Proof.
  induction l as [|y l IH]; intros Hnot; simpl; [by eexists|].
  apply not_elem_of_cons in Hnot as [Hne Hnot].
  destruct (String.eqb_spec y x) as [->|_]; [done|].
  destruct (IH Hnot) as [e ->]. by eexists.
Qed.

Lemma drop_past_prefix (pre : list string) x tl :
  drop (List.length pre + 1) (pre ++ x :: tl) = tl.
Proof.
  rewrite drop_app_ge by lia.
  by replace (List.length pre + 1 - List.length pre)%nat with 1%nat by lia.
Qed.

Lemma rsplit1_shape c s :
  (Py.rsplit1 c s = [s] /\ free_of c s = true) \/
  (exists h t, Py.rsplit1 c s = [h; t] /\ free_of c t = true /\
               s = h +:+ String c t).
Proof.
  induction s as [|a s IH]; simpl; [by left|].
  destruct IH as [[-> Hfree]|(h & t & -> & Hfree & ->)].
  - destruct (Ascii.eqb_spec a c) as [->|Hne].
    + right. by exists EmptyString, s.
    + left. simpl. by rewrite Hfree.
  - right. by exists (String a h), t.
Qed.

Lemma rsplit1_head s :
  exists p, Py.getitem (Py.rsplit1 "." s) 0 = Ok p /\ without_extension s p.
Proof.
  destruct (rsplit1_shape "." s) as [[-> Hfree]|(h & t & -> & Hfree & ->)].
  - exists s. split; [done|]. by left.
  - exists h. split; [done|]. right. by exists t.
Qed.

(** The outcome of [delete_from_cloudinary] once the accessor has returned
    a configuration. *)
Lemma delete_from_cloudinary_configured url w p c w1 :
  get_cloudinary_config w = (Ok (Some (Instance p (FCloudinary c))), w1) ->
  let w2 := set_sdk_config (Some (cloud_name c, cloudinary_api_key c, api_secret c)) w1 in
  let parts := Py.split "/" url in
  delete_from_cloudinary url w =
    if Py.contains "cloudinary.com" url && (2 <=? List.length parts)%nat then
      match Py.index "upload" parts with
      | Ok upload_index =>
          match Py.getitem (drop (upload_index + 1) parts) 0 with
          | Ok first =>
              let public_id_parts :=
                if Py.startswith first "v"
                then drop 1 (drop (upload_index + 1) parts)
                else drop (upload_index + 1) parts in
              match Py.getitem (Py.rsplit1 "." (Py.join "/" public_id_parts)) 0 with
              | Ok public_id =>
                  (Ok (reports_ok (destroy_answer (net w2) (calls w2) public_id)),
                   set_calls (calls w2 ++ [UploaderDestroy public_id]) w2)
              | Raise _ => (Ok false, w2)
              end
          | Raise _ => (Ok false, w2)
          end
      | Raise _ => (Ok false, w2)
      end
    else (Ok false, w2).
Proof.
  intros Hget w2 parts.
  unfold delete_from_cloudinary. unfold bind at 1. rewrite Hget.
  unfold try_except. unfold bind at 1. rewrite configure_cloudinary_instance.
  fold w2. fold parts.
  destruct (Py.contains "cloudinary.com" url && (2 <=? List.length parts)%nat); [|done].
  unfold bind at 1. unfold lift at 1.
  destruct (Py.index "upload" parts) as [i|e]; [|done].
  unfold bind at 1. unfold lift at 1.
  destruct (Py.getitem (drop (i + 1) parts) 0) as [first|e]; [|done].
  cbv zeta.
  unfold bind at 1. unfold lift at 1.
  match goal with |- context [Py.getitem (Py.rsplit1 "." ?j) 0] =>
    destruct (Py.getitem (Py.rsplit1 "." j) 0) as [public_id|e] end; [|done].
  unfold bind, uploader_destroy, ret.
  by destruct (destroy_answer (net w2) (calls w2) public_id).
Qed.

Lemma delete_from_cloudinary_spec url w :
  typed w ->
  exists b w',
    delete_from_cloudinary url w = (Ok b, w') /\ typed w' /\
    clock w' = clock w /\ users w' = users w /\ net w' = net w /\
    ((calls w' = calls w /\ b = false) \/
     exists public_id,
       calls w' = (calls w ++ [UploaderDestroy public_id])%list /\
       b = reports_ok (destroy_answer (net w) (calls w) public_id)).
Proof.
  intros Hw.
  destruct (get_cloudinary_config_spec w Hw)
    as (o & w1 & Hget & Hw1 & (Hc & Hu & Hcalls & Hnet) & Ho).
  destruct o as [config|].
  2: { exists false, w1. unfold delete_from_cloudinary, bind. rewrite Hget.
       split_and!; try done. by left. }
  destruct Ho as (p & c & ->).
  rewrite (delete_from_cloudinary_configured url w p c w1 Hget). cbv zeta.
  set (w2 := set_sdk_config _ w1).
  assert (Hw2 : typed w2) by by apply typed_set_sdk_config.
  assert (Hskip : exists b w', (Ok false, w2) = (Ok b, w') /\ typed w' /\
    clock w' = clock w /\ users w' = users w /\ net w' = net w /\
    ((calls w' = calls w /\ b = false) \/
     exists public_id,
       calls w' = (calls w ++ [UploaderDestroy public_id])%list /\
       b = reports_ok (destroy_answer (net w) (calls w) public_id))).
  { exists false, w2. split_and!; try done. by left. }
  destruct (_ && _); [|done].
  destruct (Py.index _ _); [|done].
  destruct (Py.getitem _ _); [|done].
  destruct (Py.getitem _ _) as [public_id|]; [|done].
  eexists _, _. split_and!; [done|by apply typed_set_calls|done|done|done|].
  right. exists public_id. subst w2. simpl. by rewrite Hnet, Hcalls.
Qed.

(** What [delete_from_cloudinary] does, as coded.  It never raises.  When
    the URL lacks [cloudinary.com] or has no [/], nothing is sent and the
    answer is [False].  When the accessor returns a configuration and the
    URL contains [cloudinary.com], with [upload] as a path segment followed
    by at least one more, exactly one destroy request leaves; its identifier
    is made of the segments after the first [upload], without the leading
    one when that segment starts with [v], joined by [/] and cut at the last
    dot; the answer is whether the host reported [ok]. *)
Lemma delete_from_cloudinary_as_coded (url : string) (w : world) :
  typed w ->
  exists b w',
    delete_from_cloudinary url w = (Ok b, w') /\
    (Py.contains "cloudinary.com" url = false \/ (List.length (Py.split "/" url) < 2)%nat ->
       b = false /\ calls w' = calls w) /\
    (forall config pre first rest,
       (get_cloudinary_config w).1 = Ok (Some config) ->
       Py.contains "cloudinary.com" url = true ->
       Py.split "/" url = (pre ++ "upload" :: first :: rest)%list ->
       "upload" ∉ pre ->
       exists public_id,
         without_extension
           (Py.join "/" (if Py.startswith first "v" then rest else first :: rest))
           public_id /\
         calls w' = (calls w ++ [UploaderDestroy public_id])%list /\
         b = reports_ok (destroy_answer (net w) (calls w) public_id)).
Proof.
  intros Hw.
  destruct (get_cloudinary_config_spec w Hw)
    as (o & w1 & Hget & Hw1 & (Hc & Hu & Hcalls & Hnet) & Ho).
  destruct o as [config|].
  2: { exists false, w1. unfold delete_from_cloudinary, bind. rewrite Hget.
       split_and!; [done|done|]. intros ???? H. simpl in H. discriminate. }
  destruct Ho as (p & c & ->).
  rewrite (delete_from_cloudinary_configured url w p c w1 Hget). cbv zeta.
  set (w2 := set_sdk_config _ w1).
  assert (Hc2 : calls w2 = calls w) by exact Hcalls.
  assert (Hn2 : net w2 = net w) by exact Hnet.
  destruct (Py.contains "cloudinary.com" url) eqn:Hin; cbn [andb].
  2: { exists false, w2. split_and!; [done|by intros _; split|]. by intros ???? _ ?. }
  destruct (2 <=? List.length (Py.split "/" url))%nat eqn:Hlen.
  2: { exists false, w2. split_and!; [done|by intros _; split|].
       intros ???? _ _ Hsplit _. apply Nat.leb_gt in Hlen.
       rewrite Hsplit, length_app in Hlen. simpl in Hlen. lia. }
  apply Nat.leb_le in Hlen.
  destruct (Py.index "upload" (Py.split "/" url)) as [i|e] eqn:Hidx.
  2: { exists false, w2. split_and!; [done|intros [?|?]; [done|lia]|].
       intros ? pre first rest _ _ Hsplit Hpre.
       rewrite Hsplit, index_found in Hidx by done. discriminate. }
  destruct (Py.getitem (drop (i + 1) (Py.split "/" url)) 0) as [first'|e] eqn:Hfirst.
  2: { exists false, w2. split_and!; [done|intros [?|?]; [done|lia]|].
       intros ? pre first rest _ _ Hsplit Hpre.
       rewrite Hsplit, index_found in Hidx by done. injection Hidx as <-.
       rewrite Hsplit, drop_past_prefix in Hfirst. discriminate. }
  destruct (rsplit1_head
              (Py.join "/" (if Py.startswith first' "v"
                            then drop 1 (drop (i + 1) (Py.split "/" url))
                            else drop (i + 1) (Py.split "/" url))))
    as (public_id & Hpid & Hext).
  rewrite Hpid.
  eexists _, _. split_and!; [done|intros [?|?]; [done|lia]|].
  intros ? pre first rest _ _ Hsplit Hpre.
  rewrite Hsplit, index_found in Hidx by done. injection Hidx as <-.
  rewrite Hsplit, drop_past_prefix in Hfirst, Hext. injection Hfirst as <-.
  exists public_id. split_and!.
  - by destruct (Py.startswith first "v").
  - simpl. by rewrite Hcalls.
  - by rewrite Hn2, Hc2.
Qed.

(** The hook on a new instance with a file attached. *)
Lemma hook_new instance file w :
  pk_truthy (user_pk instance) = false ->
  profile_picture instance = Some file -> truthy file = true ->
  upload_profile_picture_to_cloudinary instance w =
    (do url <- upload_to_cloudinary file (Some "users/profile_pictures") None 30;
     match url with
     | Some url => if truthy url then ret (with_remote_url url instance) else ret instance
     | None => ret instance
     end) w.
Proof.
  intros Hpk Hpic Hfile. unfold upload_profile_picture_to_cloudinary.
  by rewrite Hpk, Hpic, Hfile.
Qed.

(** The hook on an instance whose key is set: the stored row decides. *)
Lemma hook_existing instance w :
  pk_truthy (user_pk instance) = true ->
  upload_profile_picture_to_cloudinary instance w =
    match stored_user instance w with
    | None => (Ok instance, w)
    | Some old_instance =>
        match profile_picture instance with
        | Some file =>
            if truthy file
               && negb (bool_decide (profile_picture instance = profile_picture old_instance))
            then
              ((if truthy (profile_picture_url old_instance)
                then (do _ <- delete_from_cloudinary (profile_picture_url old_instance); ret tt)
                else ret tt);;
               do url <- upload_to_cloudinary file (Some "users/profile_pictures") None 30;
               match url with
               | Some url =>
                   if truthy url then ret (with_remote_url url instance) else ret instance
               | None => ret instance
               end) w
            else (Ok instance, w)
        | None => (Ok instance, w)
        end
    end.
Proof.
  intros Hpk. unfold upload_profile_picture_to_cloudinary. rewrite Hpk. cbn [negb].
  unfold stored_user. unfold bind at 1. unfold try_except, bind, User_objects_get.
  destruct (user_pk instance) as [z|]; [|done].
  destruct (users w !! z) as [old|]; [|done].
  cbn [ret]. destruct (profile_picture instance) as [file|]; [|done].
  by destruct (_ && _).
Qed.

(** C10.  On a stored instance the hook does nothing at all when the
    submitted file reference is empty: no request leaves, the world is
    unchanged and the instance keeps its URL.  It changes anything only
    when the submitted file reference is non-empty and differs from the
    stored one. *)
Theorem cleared_file_is_left_alone (instance : User) (w : world) :
  pk_truthy (user_pk instance) = true ->
  (truthy_opt (profile_picture instance) = false ->
     upload_profile_picture_to_cloudinary instance w = (Ok instance, w)) /\
  (upload_profile_picture_to_cloudinary instance w <> (Ok instance, w) ->
     truthy_opt (profile_picture instance) = true /\
     exists old_instance,
       stored_user instance w = Some old_instance /\
       profile_picture old_instance <> profile_picture instance).
Proof.
  intros Hpk. rewrite hook_existing by done.
  destruct (stored_user instance w) as [old|]; [|done].
  destruct (profile_picture instance) as [file|] eqn:Hpic; [|done]. simpl.
  destruct (truthy file); [|done]. cbn [andb].
  destruct (decide (Some file = profile_picture old)) as [Heq|Hne].
  - rewrite bool_decide_true by done. done.
  - split; [done|]. intros _. split; [done|]. exists old. split; [done|congruence].
Qed.

End Media.

(** ** The e-mail client *)

Section Email.

(** C9.  With an empty [api_key], [send_test_email] answers
    [(False, "API key is not configured.")] and leaves the world as it
    was: no request is made. *)
Theorem send_test_email_without_api_key
    (config : instance) (to_email : string) (w : world) :
  get_api_key config = Ok "" ->
  send_test_email config to_email w = (Ok (false, "API key is not configured."), w).
Proof.
  intros H. unfold send_test_email, bind, lift. by rewrite H.
Qed.

Lemma sender_of_resend p c w :
  sender_of (Instance p (FResend c)) w =
    (Ok (if truthy (from_name c)
         then from_name c +:+ " <" +:+ from_email c +:+ ">"
         else from_email c), w).
Proof. unfold sender_of, bind, lift, ret. simpl. by destruct (truthy (from_name c)). Qed.

(** What [send_email] does with each outcome of its one request. *)
Lemma send_email_outcomes to_email subject html w :
  typed w ->
  exists o w1,
    get_resend_config w = (Ok o, w1) /\ calls w1 = calls w /\ net w1 = net w /\
    match o with
    | None => send_email to_email subject html w
              = (Ok (false, "Email service is not configured."), w1)
    | Some config =>
        exists p c, config = Instance p (FResend c) /\
        let req := resend_request c to_email subject html in
        send_email to_email subject html w =
          (match classify (post_answer (net w) (calls w) req) with
           | Sent => Ok (true, "Email sent successfully.")
           | ProviderRejected m | TimedOut m | TransportFailure m =>
               Ok (false, "Failed to send email: " +:+ m)
           | UnhandledBody => Raise (Exn AttributeError "get")
           end,
           set_calls (calls w ++ [RequestsPost req]) w1)
    end.
Proof.
  intros Hw.
  destruct (get_resend_config_spec w Hw)
    as (o & w1 & Hget & Hw1 & (Hc & Hu & Hcalls & Hnet) & Ho).
  exists o, w1. split_and!; [done|done|done|].
  destruct o as [config|].
  2: { unfold send_email, bind. by rewrite Hget. }
  destruct Ho as (p & c & -> & Hkey). exists p, c. split; [done|].
  cbv zeta. unfold send_email. unfold bind at 1. rewrite Hget. unfold try_except. unfold bind at 1. unfold lift at 1. cbn [get_api_key attrs].
  unfold bind at 1. rewrite sender_of_resend.
  fold (resend_request c to_email subject html).
  unfold bind at 1. unfold requests_post. rewrite Hnet, Hcalls. unfold classify.
  destruct (post_answer (net w) (calls w) (resend_request c to_email subject html))
    as [r|msg|msg]; [|done|done].
  destruct (status_code r =? 200); [done|].
  unfold bind, lift, response_json.
  destruct (body_json r) as [[members|]|]; done.
Qed.

(** C7 on the code.  A 500 response whose JSON body is an array makes
    [send_email] raise [AttributeError] to its caller, after its single
    request. *)
Theorem send_email_raises_on_array_body :
  send_email "user@example.com" "Welcome!" "<h1>Welcome</h1>"
    (resend_configured resend_answers_array)
  = (Raise (Exn AttributeError "get"),
     set_calls
       [RequestsPost
          (resend_request
             {| resend_is_active := true; resend_api_key := "re_123";
                from_email := "noreply@example.com"; from_name := "Turbo";
                last_test_at := None; last_test_status := "" |}
             "user@example.com" "Welcome!" "<h1>Welcome</h1>")]
       (SingletonModel.load Resend (resend_configured resend_answers_array)).2).
Proof. vm_compute. reflexivity. Qed.

(** The same response makes [send_test_email] raise as well. *)
Lemma send_test_email_raises_on_array_body :
  (send_test_email (Instance (Some 1) (attrs sample_resend)) "user@example.com"
     (resend_configured resend_answers_array)).1
  = Raise (Exn AttributeError "get").
Proof. vm_compute. reflexivity. Qed.

End Email.

(** ** The claims at the sample worlds *)

Section Samples.

Import SingletonModel.

Lemma typed_startup n : typed (startup n).
Proof. apply typed_empty. Qed.

Lemma typed_media_world : typed media_world.
Proof.
  apply typed_intro; simpl.
  - by intros k z r [[= <- <-] <-]%lookup_singleton_Some.
  - intros k v e. by rewrite lookup_empty.
Qed.

Lemma saves_leave_one_row_at_fixed_key_witness :
  Forall (fun self => class_of self = Resend)
    [sample_resend; Instance None (default_fields Resend)] /\
  [sample_resend; Instance None (default_fields Resend)] <> [] /\
  only_fixed_key Resend (startup unreachable) /\
  exists self,
    last [sample_resend; Instance None (default_fields Resend)] = Some self /\
    (save_all [sample_resend; Instance None (default_fields Resend)]
       (startup unreachable)).1 = Ok tt /\
    rows_of Resend
      (save_all [sample_resend; Instance None (default_fields Resend)]
         (startup unreachable)).2
    = {[ (Resend, 1) := Instance (Some 1) (attrs self) ]} /\
    size (rows_of Resend
            (save_all [sample_resend; Instance None (default_fields Resend)]
               (startup unreachable)).2) = 1%nat.
Proof.
  assert (H1 : Forall (fun self => class_of self = Resend)
                 [sample_resend; Instance None (default_fields Resend)])
    by (repeat constructor).
  assert (H2 : [sample_resend; Instance None (default_fields Resend)] <> []) by done.
  assert (H3 : only_fixed_key Resend (startup unreachable)).
  { intros z [r Hr]. simpl in Hr. by rewrite lookup_empty in Hr. }
  split_and!; [done|done|done|].
  exact (saves_leave_one_row_at_fixed_key Resend _ (startup unreachable) H1 H2 H3).
Defined.

Lemma gateway_returns_record_iff_configured_witness :
  typed (resend_configured unreachable) /\
  exists r w',
    load Resend (resend_configured unreachable) = (Ok r, w') /\
    get_config Resend (resend_configured unreachable)
      = (Ok (if configured r then Some r else None), w') /\
    (forall c, (get_config Resend (resend_configured unreachable)).1 = Ok (Some c)
               <-> c = r /\ configured r = true) /\
    ((get_config Resend (resend_configured unreachable)).1 = Ok None
     <-> configured r = false).
Proof.
  assert (H : typed (resend_configured unreachable))
    by (apply typed_save, typed_startup).
  split; [done|].
  exact (gateway_returns_record_iff_configured Resend _ H).
Defined.

Lemma load_caches_for_300_seconds_witness :
  (cache resend_cached !! cache_key Resend
     = Some (Instance (Some 1) (attrs sample_resend), 300) /\
   clock resend_cached < 300 /\
   load Resend resend_cached = (Ok (Instance (Some 1) (attrs sample_resend)), resend_cached)) /\
  ((forall v e, cache (startup unreachable) !! cache_key TinyMCE = Some (v, e) ->
                e <= clock (startup unreachable)) /\
   let r := default (Instance (Some 1) (default_fields TinyMCE))
              (tables (startup unreachable) !! (TinyMCE, 1)) in
   let w1 := (load TinyMCE (startup unreachable)).2 in
   (load TinyMCE (startup unreachable)).1 = Ok r /\
   tables w1 = <[(TinyMCE, 1) := r]> (tables (startup unreachable)) /\
   cache w1 !! cache_key TinyMCE = Some (r, clock (startup unreachable) + 300) /\
   (forall d, 0 <= d < 300 -> load TinyMCE (advance d w1) = (Ok r, advance d w1)) /\
   (forall d t, 300 <= d ->
      (load TinyMCE (set_tables t (advance d w1))).1 =
        Ok (default (Instance (Some 1) (default_fields TinyMCE)) (t !! (TinyMCE, 1))))).
Proof.
  assert (H1 : cache resend_cached !! cache_key Resend
               = Some (Instance (Some 1) (attrs sample_resend), 300))
    by (vm_compute; reflexivity).
  assert (H2 : clock resend_cached < 300) by (vm_compute; reflexivity).
  assert (H3 : forall v e, cache (startup unreachable) !! cache_key TinyMCE = Some (v, e) ->
                           e <= clock (startup unreachable)).
  { intros v e H. simpl in H. by rewrite lookup_empty in H. }
  split.
  - split_and!; [done|done|].
    exact (proj1 (load_caches_for_300_seconds Resend resend_cached) _ _ H1 H2).
  - split; [done|].
    exact (proj2 (load_caches_for_300_seconds TinyMCE (startup unreachable)) H3).
Defined.

Lemma delete_from_cloudinary_as_coded_sample :
  typed media_world /\
  exists b w',
    delete_from_cloudinary sample_old_url media_world = (Ok b, w') /\
    (Py.contains "cloudinary.com" sample_old_url = false \/
     (List.length (Py.split "/" sample_old_url) < 2)%nat ->
       b = false /\ calls w' = calls media_world) /\
    (forall config pre first rest,
       (get_cloudinary_config media_world).1 = Ok (Some config) ->
       Py.contains "cloudinary.com" sample_old_url = true ->
       Py.split "/" sample_old_url = (pre ++ "upload" :: first :: rest)%list ->
       "upload" ∉ pre ->
       exists public_id,
         without_extension
           (Py.join "/" (if Py.startswith first "v" then rest else first :: rest))
           public_id /\
         calls w' = (calls media_world ++ [UploaderDestroy public_id])%list /\
         b = reports_ok (destroy_answer (net media_world) (calls media_world) public_id)).
Proof.
  split; [exact typed_media_world|].
  exact (delete_from_cloudinary_as_coded sample_old_url media_world typed_media_world).
Qed.

Lemma send_test_email_without_api_key_witness :
  get_api_key (Instance (Some 1) (default_fields Resend)) = Ok "" /\
  send_test_email (Instance (Some 1) (default_fields Resend)) "user@example.com"
    (startup unreachable)
  = (Ok (false, "API key is not configured."), startup unreachable).
Proof.
  split; [reflexivity|].
  exact (send_test_email_without_api_key (Instance (Some 1) (default_fields Resend))
           "user@example.com" (startup unreachable) eq_refl).
Defined.

Lemma cleared_file_is_left_alone_witness :
  pk_truthy (user_pk sample_cleared_user) = true /\
  truthy_opt (profile_picture sample_cleared_user) = false /\
  upload_profile_picture_to_cloudinary sample_cleared_user media_world
    = (Ok sample_cleared_user, media_world).
Proof.
  split_and!; [reflexivity|reflexivity|].
  exact (proj1 (cleared_file_is_left_alone sample_cleared_user media_world eq_refl) eq_refl).
Defined.

(** The stored URL of the sample user yields the identifier
    [users/profile_pictures/old]. *)
Example delete_sample_old_url :
  let r := delete_from_cloudinary sample_old_url media_world in
  r.1 = Ok true /\ calls r.2 = [UploaderDestroy "users/profile_pictures/old"].
Proof. vm_compute. by split. Qed.

(** A first segment that merely starts with [v] is dropped like a
    version. *)
Example delete_drops_any_v_segment :
  calls (delete_from_cloudinary
           "https://res.cloudinary.com/demo/image/upload/vacation/beach.jpg"
           media_world).2
  = [UploaderDestroy "beach"].
Proof. vm_compute. reflexivity. Qed.

(** The hook on the sample users. *)
Example hook_sample_new_user :
  let r := upload_profile_picture_to_cloudinary sample_new_user media_world in
  r.1 = Ok (with_remote_url
              "https://res.cloudinary.com/demo/image/upload/v2/users/profile_pictures/new.jpg"
              sample_new_user) /\
  exists p, calls r.2 = [UploaderUpload "avatar.png" p] /\
            up_folder p = "users/profile_pictures".
Proof. vm_compute. split; [done|]. eexists. by split. Qed.

Example hook_sample_changed_user :
  exists p,
    calls (upload_profile_picture_to_cloudinary sample_changed_user media_world).2
    = [UploaderDestroy "users/profile_pictures/old"; UploaderUpload "new.png" p].
Proof. vm_compute. by eexists. Qed.

End Samples.

(** ** Further properties of the singleton store *)

Section SingletonMore.

Import SingletonModel.

Lemma keyed_only_fixed_key k w : keyed w -> only_fixed_key k w.
Proof. intros H z [r Hr]. by destruct (H _ _ _ Hr). Qed.

Lemma rows_of_none k w :
  only_fixed_key k w -> tables w !! (k, 1) = None -> rows_of k w = ∅.
Proof.
  intros Hfix Hnone. apply map_eq. intros [k' z]. rewrite lookup_empty.
  apply eq_None_not_Some. intros [x [Hx Hk]%map_lookup_filter_Some].
  simpl in Hk. subst k'. assert (z = 1) by (apply Hfix; eauto). subst z. congruence.
Qed.

Lemma keyed_table_insert w k r :
  keyed w -> pk r = Some 1 -> keyed (set_tables (<[(k, 1) := r]> (tables w)) w).
Proof.
  intros H Hr k' z r'. simpl.
  intros [[[= <- <-] <-]|[_ Hx]]%lookup_insert_Some; [done|]. eauto.
Qed.

Lemma keyed_table_delete w key :
  keyed w -> keyed (set_tables (base.delete key (tables w)) w).
Proof. intros H k z r. simpl. intros [_ Hx]%lookup_delete_Some. eauto. Qed.

Lemma coherent_cache_delete_table_insert w k r :
  coherent w ->
  coherent (set_cache (base.delete (cache_key k) (cache w))
              (set_tables (<[(k, 1) := r]> (tables w)) w)).
Proof.
  intros H k' v e. simpl. intros [Hne Hc]%lookup_delete_Some.
  rewrite lookup_insert_ne by congruence. eauto.
Qed.

Lemma coherent_cache_delete_table_delete w k z :
  coherent w ->
  coherent (set_tables (base.delete (k, z) (tables w))
              (set_cache (base.delete (cache_key k) (cache w)) w)).
Proof.
  intros H k' v e. simpl. intros [Hne Hc]%lookup_delete_Some.
  rewrite lookup_delete_ne by congruence. eauto.
Qed.

Lemma settled_save self w : settled w -> settled (save self w).2.
Proof.
  intros (Ht & Hk & Hc). split_and!.
  - by apply typed_save.
  - rewrite save_eq. simpl. intros k z r. simpl.
    intros [[[= <- <-] <-]|[_ Hx]]%lookup_insert_Some; [done|]. eauto.
  - rewrite save_eq. simpl. by apply coherent_cache_delete_table_insert.
Qed.

Lemma settled_delete self w : settled w -> settled (delete self w).2.
Proof.
  intros (Ht & Hk & Hc). split; [by apply typed_delete|].
  destruct (pk self) as [z|] eqn:Hpk.
  - rewrite (delete_eq _ z) by done. simpl. split.
    + intros k z' r. simpl. intros [_ Hx]%lookup_delete_Some. eauto.
    + by apply coherent_cache_delete_table_delete.
  - unfold delete, clear_cache, cache_delete, Model_delete, bind. simpl.
    rewrite Hpk. simpl. split; [done|].
    intros k v e. simpl. intros [_ Hx]%lookup_delete_Some. eauto.
Qed.

Lemma settled_load k w : settled w -> settled (load k w).2.
Proof.
  intros (Ht & Hk & Hc).
  destruct (load_typed k w Ht) as (r & w' & Hload & _ & Ht' & _).
  split; [by rewrite Hload|].
  destruct (cached k w) as [v|] eqn:Hcached.
  - by rewrite (load_hit _ _ v).
  - destruct (tables w !! (k, 1)) as [row|] eqn:Hrow.
    + rewrite (load_miss_row _ _ row) by done. simpl. split; [done|].
      intros k' v e. simpl.
      intros [[Hkey [= <- <-]]|[_ Hx]]%lookup_insert_Some; [|by eauto].
      apply cache_key_inj in Hkey. by subst.
    + rewrite load_miss_create by done. simpl. split.
      * intros k' z r0. simpl.
        intros [[[= <- <-] <-]|[_ Hx]]%lookup_insert_Some; [done|]. eauto.
      * intros k' v e. simpl.
        intros [[Hkey [= <- <-]]|[Hne Hx]]%lookup_insert_Some.
        -- apply cache_key_inj in Hkey. subst. apply lookup_insert_eq.
        -- rewrite lookup_insert_ne by congruence. eauto.
Qed.

Lemma reachable_settled w : reachable w -> settled w.
Proof.
  induction 1 as [n|self w _ IH|self w _ IH|k w _ IH|d w Hd _ IH|w w' _ IH Ht Hc Hk].
  - split_and!; [apply typed_empty| |]; intros ???; simpl; by rewrite lookup_empty.
  - by apply settled_save.
  - by apply settled_delete.
  - by apply settled_load.
  - destruct IH as (H1 & H2 & H3). split_and!; [by apply typed_advance|done|done].
  - destruct IH as ((H1a & H1b) & H2 & H3). split_and!.
    + apply typed_intro; rewrite ?Ht, ?Hc; done.
    + intros k z r. rewrite Ht. apply H2.
    + intros k v e. rewrite Ht, Hc. apply H3.
Qed.

(** X1.  In every reachable world each settings table has at most one row;
    the row sits at key 1, carries primary key 1 and is an instance of the
    table's model. *)
Theorem reachable_tables_are_singletons (w : world) (k : kind) :
  reachable w ->
  only_fixed_key k w /\
  (size (rows_of k w) <= 1)%nat /\
  (forall r, tables w !! (k, 1) = Some r -> pk r = Some 1 /\ class_of r = k).
Proof.
  intros Hr. destruct (reachable_settled w Hr) as ((Ht & _) & Hk & _).
  assert (Hfix : only_fixed_key k w) by by apply keyed_only_fixed_key.
  split_and!; [done| |].
  - destruct (tables w !! (k, 1)) as [row|] eqn:Hrow.
    + rewrite (rows_of_fixed_key _ _ row), map_size_singleton by done. lia.
    + rewrite rows_of_none, map_size_empty by done. lia.
  - intros r Hrow. split; [by destruct (Hk _ _ _ Hrow)|eauto].
Qed.

(** X2.  In every reachable world [load] returns what the store holds at
    that moment: the row at key 1, or the default record when there is none.
    A cached copy never differs from the stored row. *)
Theorem reachable_load_returns_stored_row (w : world) (k : kind) :
  reachable w ->
  (load k w).1 = Ok (default (default_instance k) (tables w !! (k, 1))).
Proof.
  intros Hr. destruct (reachable_settled w Hr) as (_ & _ & Hc).
  destruct (cached k w) as [v|] eqn:Hcached.
  - rewrite (load_hit _ _ v) by done. simpl.
    unfold cached in Hcached.
    destruct (cache w !! cache_key k) as [[v' e]|] eqn:Hentry; [|done].
    destruct (e <=? clock w); [done|]. injection Hcached as ->.
    by rewrite (Hc _ _ _ Hentry).
  - destruct (tables w !! (k, 1)) as [row|] eqn:Hrow.
    + by rewrite (load_miss_row _ _ row).
    + by rewrite load_miss_create.
Qed.

End SingletonMore.

Section SingletonCompose.

Import SingletonModel.

(** X3.  Deleting the stored instance and loading again gives the default
    record, stored anew under key 1: nothing of the deleted record comes
    back, whatever the cache held. *)
Theorem delete_then_load_gives_defaults (self : instance) (w : world) :
  pk self = Some 1 ->
  let k := class_of self in
  let w1 := (delete self w).2 in
  (delete self w).1 = Ok (Instance None (attrs self)) /\
  tables w1 !! (k, 1) = None /\
  (load k w1).1 = Ok (default_instance k) /\
  tables (load k w1).2 !! (k, 1) = Some (default_instance k).
Proof.
  intros Hpk k w1. subst w1. rewrite (delete_eq _ 1) by done. simpl.
  set (w1 := set_tables _ _).
  assert (Hrow : tables w1 !! (k, 1) = None) by apply lookup_delete_eq.
  assert (Hcached : cached k w1 = None).
  { unfold cached. simpl. by rewrite lookup_delete_eq. }
  split_and!; [done|done| |].
  - by rewrite load_miss_create.
  - rewrite load_miss_create by done. simpl. apply lookup_insert_eq.
Qed.

(** X4.  [delete] on an instance that has no primary key raises, and by
    then the cache entry of its model is already gone; the tables are
    untouched. *)
Theorem delete_without_key_still_evicts (self : instance) (w : world) :
  pk self = None ->
  (exists e, (delete self w).1 = Raise e) /\
  tables (delete self w).2 = tables w /\
  cache (delete self w).2 = base.delete (cache_key (class_of self)) (cache w).
Proof.
  intros Hpk. unfold delete, clear_cache, cache_delete, Model_delete, bind. simpl.
  rewrite Hpk. simpl. split_and!; [by eexists|done|done].
Qed.

Lemma load_depends_on w w' k :
  cached k w' = cached k w -> tables w' !! (k, 1) = tables w !! (k, 1) ->
  (load k w').1 = (load k w).1.
Proof.
  intros Hc Ht. destruct (cached k w) as [v|] eqn:Hcached.
  - by rewrite !(load_hit _ _ v).
  - destruct (tables w !! (k, 1)) as [row|] eqn:Hrow.
    + by rewrite !(load_miss_row _ _ row).
    + by rewrite !load_miss_create.
Qed.

(** X5.  The models do not interfere: saving or deleting an instance of one
    model changes neither the rows nor the cache entry of another model, so
    a load of the other model returns what it would have returned. *)
Theorem other_models_are_untouched (self : instance) (k : kind) (w : world) :
  k <> class_of self ->
  (forall z, tables (save self w).2 !! (k, z) = tables w !! (k, z)) /\
  cache (save self w).2 !! cache_key k = cache w !! cache_key k /\
  (load k (save self w).2).1 = (load k w).1 /\
  (forall z, tables (delete self w).2 !! (k, z) = tables w !! (k, z)) /\
  cache (delete self w).2 !! cache_key k = cache w !! cache_key k /\
  (load k (delete self w).2).1 = (load k w).1.
Proof.
  intros Hne.
  assert (Hkey : cache_key (class_of self) <> cache_key k).
  { intros H. apply cache_key_inj in H. congruence. }
  assert (Hs1 : forall z, tables (save self w).2 !! (k, z) = tables w !! (k, z)).
  { intros z. rewrite save_eq. simpl. apply lookup_insert_ne. congruence. }
  assert (Hs2 : cache (save self w).2 !! cache_key k = cache w !! cache_key k).
  { rewrite save_eq. simpl. by apply lookup_delete_ne. }
  assert (Hd : (forall z, tables (delete self w).2 !! (k, z) = tables w !! (k, z)) /\
               cache (delete self w).2 !! cache_key k = cache w !! cache_key k).
  { destruct (pk self) as [p|] eqn:Hpk.
    - rewrite (delete_eq _ p) by done. simpl. split.
      + intros z. apply lookup_delete_ne. congruence.
      + by apply lookup_delete_ne.
    - unfold delete, clear_cache, cache_delete, Model_delete, bind. simpl.
      rewrite Hpk. simpl. split; [done|]. by apply lookup_delete_ne. }
  destruct Hd as [Hd1 Hd2].
  split_and!; try done.
  - apply load_depends_on; [|done]. unfold cached. rewrite Hs2.
    by rewrite save_eq.
  - apply load_depends_on; [|done]. unfold cached. rewrite Hd2.
    assert (Hclock : clock (delete self w).2 = clock w).
    { destruct (pk self) as [p|] eqn:Hpk.
      - by rewrite (delete_eq _ p).
      - unfold delete, clear_cache, cache_delete, Model_delete, bind. simpl.
        by rewrite Hpk. }
    by rewrite Hclock.
Qed.

(** X6.  On a fresh installation every accessor answers [None]: its first
    call stores the default record of its model, which is inactive. *)
Theorem fresh_install_is_unconfigured (k : kind) (n : remote) :
  (get_config k (startup n)).1 = Ok None /\
  tables (get_config k (startup n)).2 = {[ (k, 1) := default_instance k ]} /\
  calls (get_config k (startup n)).2 = [].
Proof. by destruct k. Qed.

(** X7.  A save takes effect at once for the accessor of the model: right
    after it the accessor returns the saved record when that record is
    active with its required fields, and [None] otherwise, whatever was
    cached before. *)
Theorem save_then_accessor_sees_saved (self : instance) (w : world) :
  let saved := Instance (Some 1) (attrs self) in
  (get_config (class_of self) (save self w).2).1
  = Ok (if configured saved then Some saved else None).
Proof.
  intros saved.
  assert (Hload : load (class_of self) (save self w).2
                  = (Ok saved, (load (class_of self) (save self w).2).2)).
  { rewrite (load_miss_row _ _ saved); [done| |].
    - rewrite save_eq. unfold cached. simpl. by rewrite lookup_delete_eq.
    - rewrite save_eq. simpl. apply lookup_insert_eq. }
  revert Hload. generalize (save self w).2. intros w1 Hload.
  subst saved. destruct self as [p [c|c|c|c]]; unfold class_of in *; simpl in *;
    unfold get_stripe_config, get_resend_config, get_tinymce_config,
      get_cloudinary_config, bind; rewrite Hload;
    unfold configured, required_fields_present, is_active; simpl.
  - destruct (stripe_is_active c); [|done]. by destruct (truthy (secret_key c)).
  - destruct (resend_is_active c); [|done]. by destruct (truthy (resend_api_key c)).
  - destruct (tinymce_is_active c); [|done]. by destruct (truthy (tinymce_api_key c)).
  - destruct (cloudinary_is_active c); [|done].
    destruct (truthy (cloud_name c)); [|done].
    destruct (truthy (cloudinary_api_key c)); [|done].
    by destruct (truthy (api_secret c)).
Qed.

End SingletonCompose.

(** ** The Cloudinary SDK and the editor settings *)

Section Editor.

Import SingletonModel.

(** X8.  [configure_cloudinary] answers [True] exactly when the stored
    Cloudinary record is active with its three credentials, and then the SDK
    holds exactly those credentials; otherwise it answers [False] and leaves
    the SDK configuration as it was.  It sends nothing. *)
Theorem configure_cloudinary_sets_credentials (w : world) :
  typed w ->
  exists p c w1,
    load Cloudinary w = (Ok (Instance p (FCloudinary c)), w1) /\
    (configure_cloudinary w).1 = Ok (configured (Instance p (FCloudinary c))) /\
    sdk_config (configure_cloudinary w).2 =
      (if configured (Instance p (FCloudinary c))
       then Some (cloud_name c, cloudinary_api_key c, api_secret c)
       else sdk_config w) /\
    calls (configure_cloudinary w).2 = calls w.
Proof.
  intros Hw.
  destruct (get_config_spec Cloudinary w Hw)
    as (r & w1 & Hload & Hk & _ & (_ & _ & Hcalls & _) & Hsdk & Hget).
  destruct r as [p [c|c|c|c]]; try done. exists p, c, w1. split; [done|].
  unfold configure_cloudinary, bind. simpl in Hget. rewrite Hget.
  by destruct (configured _).
Qed.

(** X10.  Whenever the post pages get editor settings at all, they get a
    script URL with them: the context is present exactly when the stored
    TinyMCE record is active with an API key, and its URL is the CDN address
    holding that key, never [None].  Building the context never raises. *)
Theorem editor_context_has_script_url (w : world) :
  typed w ->
  exists p c w1 d,
    load TinyMCE w = (Ok (Instance p (FTinyMCE c)), w1) /\
    get_config_dict (Instance p (FTinyMCE c)) = Ok d /\
    PostAdmin_extra_context w =
      (Ok (if tinymce_is_active c && truthy (tinymce_api_key c)
           then Some (d, Some ("https://cdn.tiny.cloud/1/" +:+ tinymce_api_key c
                               +:+ "/tinymce/7/tinymce.min.js"))
           else None),
       w1).
Proof.
  intros Hw.
  destruct (get_config_spec TinyMCE w Hw)
    as (r & w1 & Hload & Hk & _ & _ & _ & Hget).
  destruct r as [p [c|c|c|c]]; try done. exists p, c, w1. eexists.
  split; [done|]. split; [reflexivity|].
  unfold PostAdmin_extra_context, bind. simpl in Hget. rewrite Hget.
  unfold configured, required_fields_present, is_active. simpl.
  destruct (tinymce_is_active c); [|done]. simpl.
  destruct (truthy (tinymce_api_key c)) eqn:Hkey; [|done].
  unfold lift, get_js_url. simpl. by rewrite Hkey.
Qed.

End Editor.

(** ** The plugin list of the editor settings *)

Section Text.

Lemma append_cons c s t : String c s +:+ t = String c (s +:+ t).
Proof. reflexivity. Qed.

Lemma append_empty_r s : s +:+ "" = s.
Proof.
  induction s as [|c s IH]; [done|]. by rewrite append_cons, IH.
Qed.

(** [chars] loses nothing: the encodings of the characters, put together,
    are the text, and no character has an empty encoding. *)
Lemma chars_complete n :
  forall s, (String.length s <= n)%nat ->
    Forall (fun ch => encoding ch <> EmptyString) (chars s) /\ text_of (chars s) = s.
Proof.
  induction n as [|n IH]; intros s Hlen.
  { destruct s; [by split|simpl in Hlen; lia]. }
  destruct s as [|c0 s0]; [by split|]. simpl in Hlen.
  assert (Hsingle : Forall (fun ch => encoding ch <> EmptyString)
                      (UChar (byte_of c0) (String c0 EmptyString) :: chars s0) /\
                    text_of (UChar (byte_of c0) (String c0 EmptyString) :: chars s0)
                    = String c0 s0).
  { destruct (IH s0) as [H1 H2]; [lia|]. split; [by constructor|].
    cbn [text_of encoding]. by rewrite H2. }
  destruct s0 as [|c1 s1]; [by split; [repeat constructor|]|].
  cbn [chars]. destruct (decode2 c0 c1) as [cp|].
  { destruct (IH s1) as [H1 H2]; [simpl in Hlen; lia|]. split; [by constructor|].
    cbn [text_of encoding]. by rewrite H2. }
  destruct s1 as [|c2 s2]; [exact Hsingle|].
  destruct (decode3 c0 c1 c2) as [cp|].
  { destruct (IH s2) as [H1 H2]; [simpl in Hlen; lia|]. split; [by constructor|].
    cbn [text_of encoding]. by rewrite H2. }
  destruct s2 as [|c3 s3]; [exact Hsingle|].
  destruct (decode4 c0 c1 c2 c3) as [cp|]; [|exact Hsingle].
  destruct (IH s3) as [H1 H2]; [simpl in Hlen; lia|]. split; [by constructor|].
  cbn [text_of encoding]. by rewrite H2.
Qed.

Lemma text_of_chars s : text_of (chars s) = s.
Proof. by apply (chars_complete (String.length s)). Qed.

Lemma chars_encoding s : Forall (fun ch => encoding ch <> EmptyString) (chars s).
Proof. by apply (chars_complete (String.length s)). Qed.

Lemma split_runs_unfold ch l :
  split_runs (ch :: l) =
    if isspace (code_point ch) then split_runs l
    else match l with
         | [] => [[ch]]
         | ch' :: _ =>
             if isspace (code_point ch') then [ch] :: split_runs l
             else match split_runs l with
                  | word :: words => (ch :: word) :: words
                  | [] => [[ch]]
                  end
         end.
Proof. by destruct l. Qed.

Lemma split_runs_cons ch l :
  isspace (code_point ch) = false ->
  exists word words, split_runs (ch :: l) = (ch :: word) :: words /\
    match l with
    | [] => word = [] /\ words = []
    | ch' :: _ =>
        if isspace (code_point ch') then word = [] /\ words = split_runs l
        else split_runs l = word :: words
    end.
Proof.
  intros Hc. revert ch Hc. induction l as [|ch' l IH]; intros ch Hc.
  - exists [], []. by rewrite split_runs_unfold, Hc.
  - rewrite (split_runs_unfold ch), Hc.
    destruct (isspace (code_point ch')) eqn:Hc'.
    + by exists [], (split_runs (ch' :: l)).
    + destruct (IH ch' Hc') as (word & words & Heq & _). rewrite Heq.
      by exists (ch' :: word), words.
Qed.

Lemma visible_false ch : visible ch = false <-> isspace (code_point ch) = true.
Proof. unfold visible. by destruct (isspace _). Qed.

Lemma visible_true ch : visible ch = true <-> isspace (code_point ch) = false.
Proof. unfold visible. by destruct (isspace _). Qed.

Lemma is_name_cons ch run :
  visible ch = true -> Forall (fun ch => visible ch = true) run -> is_name (ch :: run).
Proof. intros Hc Hrun. split; [done|by constructor]. Qed.

(** [split_runs] cuts at whitespace, and nowhere else. *)
Lemma split_runs_cut l : cut_at_whitespace l (split_runs l).
Proof.
  induction l as [|ch l IH]; [constructor|].
  destruct (isspace (code_point ch)) eqn:Hc.
  { rewrite split_runs_unfold, Hc. constructor; [by apply visible_false|done]. }
  destruct (split_runs_cons ch l Hc) as (word & words & Heq & Hrest). rewrite Heq.
  assert (Hv : visible ch = true) by by apply visible_true.
  destruct l as [|ch' l].
  { destruct Hrest as [-> ->]. apply cut_last. by apply is_name_cons. }
  destruct (isspace (code_point ch')) eqn:Hc'.
  - destruct Hrest as [-> ->].
    rewrite split_runs_unfold, Hc' in IH |- *.
    assert (Hs : visible ch' = false) by by apply visible_false.
    apply (cut_run [ch] ch' l); [by apply is_name_cons|done|].
    inversion IH as [|sp l0 runs Hsp Hcut| run [Hne Hrun] | run sp l0 runs [Hne Hrun] Hsp Hcut];
      subst.
    + done.
    + inversion Hrun as [|? ? Hhead _]; subst; congruence.
    + destruct run as [|ch0 run]; [done|]. simplify_eq/=.
      inversion Hrun as [|? ? Hhead _]; subst; congruence.
  - rewrite Hrest in IH.
    assert (Hv' : visible ch' = true) by by apply visible_true.
    inversion IH as [|sp l0 runs Hsp Hcut| run [Hne Hrun] | run sp l0 runs [Hne Hrun] Hsp Hcut];
      subst.
    + congruence.
    + apply cut_last. by apply is_name_cons.
    + apply (cut_run (ch :: word) sp l0 words); [by apply is_name_cons|done|done].
Qed.

Lemma split_runs_name run : is_name run -> split_runs run = [run].
Proof.
  intros [Hne Hrun]. induction Hrun as [|ch run Hch Hrun IH]; [done|].
  apply visible_true in Hch. rewrite split_runs_unfold, Hch.
  destruct run as [|ch' run]; [done|].
  inversion Hrun as [|? ? Hch' _]; subst. apply visible_true in Hch'.
  by rewrite Hch', IH.
Qed.

Lemma split_runs_name_then run sp l :
  is_name run -> visible sp = false ->
  split_runs (run ++ sp :: l) = run :: split_runs l.
Proof.
  intros [Hne Hrun] Hsp. apply visible_false in Hsp.
  induction Hrun as [|ch run Hch Hrun IH]; [done|].
  apply visible_true in Hch. cbn [app]. rewrite split_runs_unfold, Hch.
  destruct run as [|ch' run].
  - cbn [app]. rewrite Hsp. by rewrite (split_runs_unfold sp), Hsp.
  - inversion Hrun as [|? ? Hch' _]; subst. apply visible_true in Hch'.
    cbn [app] in *. by rewrite Hch', IH.
Qed.

(** The cut of a text is unique: it is what [split_runs] computes. *)
Lemma cut_at_whitespace_unique l runs :
  cut_at_whitespace l runs -> runs = split_runs l.
Proof.
  induction 1 as [|sp l runs Hsp _ IH|run Hname|run sp l runs Hname Hsp _ IH].
  - done.
  - apply visible_false in Hsp. by rewrite split_runs_unfold, Hsp.
  - by rewrite split_runs_name.
  - by rewrite split_runs_name_then, IH.
Qed.

Lemma filter_visible_name run :
  Forall (fun ch => visible ch = true) run -> List.filter visible run = run.
Proof.
  induction 1 as [|ch run Hch _ IH]; [done|]. simpl. by rewrite Hch, IH.
Qed.

(** What a cut keeps: names only, and together every character that is
    not whitespace, in order. *)
Lemma cut_at_whitespace_keeps l runs :
  cut_at_whitespace l runs ->
  Forall is_name runs /\ List.concat runs = List.filter visible l.
Proof.
  induction 1 as [|sp l runs Hsp _ [IH1 IH2]|run [Hne Hrun]
                  |run sp l runs [Hne Hrun] Hsp _ [IH1 IH2]].
  - by split.
  - split; [done|]. simpl. by rewrite Hsp.
  - split; [by repeat constructor|]. simpl. rewrite app_nil_r.
    symmetry. by apply filter_visible_name.
  - split; [by constructor|]. simpl. rewrite List.filter_app. simpl. rewrite Hsp, IH2.
    f_equal. symmetry. by apply filter_visible_name.
Qed.

Lemma Forall_filter_keeps {A} (P : A -> Prop) f l :
  Forall P l -> Forall P (List.filter f l).
Proof.
  induction 1 as [|x l Hx _ IH]; [done|]. simpl. destruct (f x); [by constructor|done].
Qed.

Lemma Forall_of_concat {A} (P : A -> Prop) ls :
  Forall P (List.concat ls) -> Forall (Forall P) ls.
Proof.
  induction ls as [|l ls IH]; [done|]. simpl. intros [H1 H2]%Forall_app.
  constructor; [done|by apply IH].
Qed.

Lemma text_of_nonempty run :
  run <> [] -> Forall (fun ch => encoding ch <> EmptyString) run ->
  text_of run <> EmptyString.
Proof.
  destruct run as [|ch run]; [done|]. intros _ Hrun.
  inversion Hrun as [|? ? Hch _]; subst. cbn [text_of].
  by destruct (encoding ch).
Qed.

(** X9.  The plugin list of [get_config_dict] is the plugins field cut at
    whitespace, as Python's [split()] cuts it: at every character of
    [str.isspace], the no-break space and the other Unicode spaces included,
    and nowhere else.  No name in it is empty or holds whitespace, however
    the field is padded, and the names together hold every other character
    of the field, in order.  The other entries are the record's fields and
    the fixed settings. *)
Theorem get_config_dict_splits_plugins (p : option Z) (c : TinyMCEConfiguration) :
  exists d runs,
    get_config_dict (Instance p (FTinyMCE c)) = Ok d /\
    dict_plugins d = map text_of runs /\
    cut_at_whitespace (chars (plugins c)) runs /\
    Forall is_name runs /\
    List.concat runs = List.filter visible (chars (plugins c)) /\
    Forall (fun name => name <> EmptyString) (dict_plugins d) /\
    text_of (chars (plugins c)) = plugins c /\
    dict_height d = height c /\ dict_menubar d = menubar c /\ dict_toolbar d = toolbar c /\
    dict_content_css d = "default" /\ dict_relative_urls d = false /\
    dict_remove_script_host d = false /\ dict_convert_urls d = true /\
    dict_branding d = false /\ dict_promotion d = false /\
    dict_referrer_policy d = "origin".
Proof.
  eexists. exists (split_runs (chars (plugins c))).
  split; [reflexivity|]. cbn [dict_plugins dict_height dict_menubar dict_toolbar
    dict_content_css dict_relative_urls dict_remove_script_host dict_convert_urls
    dict_branding dict_promotion dict_referrer_policy].
  pose proof (split_runs_cut (chars (plugins c))) as Hcut.
  destruct (cut_at_whitespace_keeps _ _ Hcut) as [Hnames Hconcat].
  split_and!; try done; [|apply text_of_chars].
  apply Forall_map.
  assert (Henc : Forall (Forall (fun ch => encoding ch <> EmptyString))
                   (split_runs (chars (plugins c)))).
  { apply Forall_of_concat. rewrite Hconcat.
    apply Forall_filter_keeps, chars_encoding. }
  revert Hnames Henc. generalize (split_runs (chars (plugins c))).
  induction 1 as [|run runs [Hne _] _ IH]; [done|].
  intros Henc. inversion Henc; subst.
  constructor; [by apply text_of_nonempty|by apply IH].
Qed.

End Text.

(** ** Further properties of the e-mail client *)

Section EmailMore.

Import SingletonModel.

(** X11.  With an active configuration that has an API key, [send_email]
    makes exactly one request, carrying the bearer key, the sender, the one
    recipient and a 10 second timeout, whether or not [from_email] is set;
    status 200 gives [(True, ...)]; on another status a JSON object body
    gives the provider's message (or the raw text when it has none), a body
    that is no JSON gives a failure message, and a JSON body that is not an
    object makes the call raise; a transport error, timeouts included, gives
    one and the same kind of failure message. *)
Theorem send_email_reports_each_outcome
    (to_email subject html : string) (w : world) (p : option Z)
    (c : ResendConfiguration) (w1 : world) :
  typed w ->
  get_resend_config w = (Ok (Some (Instance p (FResend c))), w1) ->
  let req := resend_request c to_email subject html in
  let out := send_email to_email subject html w in
  calls out.2 = (calls w ++ [RequestsPost req])%list /\
  req_timeout req = 10 /\ req_to req = [to_email] /\
  req_authorization req = "Bearer " +:+ resend_api_key c /\
  match post_answer (net w) (calls w) req with
  | PostReturns r =>
      if status_code r =? 200 then out.1 = Ok (true, "Email sent successfully.")
      else match body_json r with
           | Some (JsonObject members) =>
               out.1 = Ok (false, "Failed to send email: "
                                  +:+ default (text r) (members !! "message"))
           | Some JsonOther => exists e, out.1 = Raise e
           | None => exists m, out.1 = Ok (false, "Failed to send email: " +:+ m)
           end
  | PostTimeout m | PostFails m => out.1 = Ok (false, "Failed to send email: " +:+ m)
  end.
Proof.
  intros Hw Hget req out.
  destruct (send_email_outcomes to_email subject html w Hw)
    as (o & w1' & Hget' & Hcalls & Hnet & Hout).
  rewrite Hget in Hget'. injection Hget' as <- <-.
  destruct Hout as (p' & c' & [= <- <-] & Hout). cbv zeta in Hout.
  subst out. fold req in Hout. rewrite Hout. simpl.
  split_and!; [done|done|done|done|].
  unfold classify.
  destruct (post_answer (net w) (calls w) req) as [r|m|m]; [|done|done].
  destruct (status_code r =? 200); [done|].
  destruct (body_json r) as [[members|]|]; [done|by eexists|by eexists].
Qed.

(** X12.  When the stored Resend record is inactive or has no API key,
    [send_email] sends nothing and answers
    [(False, "Email service is not configured.")]. *)
Theorem send_email_unconfigured_sends_nothing
    (to_email subject html : string) (w : world) :
  typed w ->
  exists r w1,
    load Resend w = (Ok r, w1) /\
    (configured r = false ->
       send_email to_email subject html w
         = (Ok (false, "Email service is not configured."), w1) /\
       calls w1 = calls w).
Proof.
  intros Hw.
  destruct (get_config_spec Resend w Hw)
    as (r & w1 & Hload & _ & _ & (_ & _ & Hcalls & _) & _ & Hget).
  exists r, w1. split; [done|]. intros Hr. rewrite Hr in Hget. simpl in Hget.
  split; [|done]. unfold send_email, bind. by rewrite Hget.
Qed.

Lemma send_test_email_resend p c to_email w :
  truthy (resend_api_key c) = true -> truthy (from_email c) = true ->
  let req := resend_request c to_email "Test Email - Turbo Configuration" test_email_html in
  send_test_email (Instance p (FResend c)) to_email w =
    (match post_answer (net w) (calls w) req with
     | PostReturns r =>
         if status_code r =? 200
         then Ok (true, "Test email sent successfully to " +:+ to_email)
         else match body_json r with
              | Some (JsonObject members) =>
                  Ok (false, "Failed to send email: "
                             +:+ default (text r) (members !! "message"))
              | Some JsonOther => Raise (Exn AttributeError "get")
              | None => Ok (false, "Failed to send email: Expecting value")
              end
     | PostTimeout _ => Ok (false, "Request timed out. Please try again.")
     | PostFails m => Ok (false, "Failed to send email: " +:+ m)
     end,
     set_calls (calls w ++ [RequestsPost req]) w).
Proof.
  intros Hkey Hfrom req.
  unfold send_test_email. unfold bind at 1. unfold lift at 1. cbn [get_api_key attrs].
  rewrite Hkey. cbn [negb].
  unfold bind at 1. unfold lift at 1. cbn [get_from_email attrs].
  rewrite Hfrom. cbn [negb].
  unfold try_except. unfold bind at 1. unfold lift at 1.
  unfold bind at 1. rewrite sender_of_resend.
  fold (resend_request c to_email "Test Email - Turbo Configuration" test_email_html).
  fold req. unfold bind at 1. unfold requests_post.
  destruct (post_answer (net w) (calls w) req) as [r|msg|msg]; [|done|done].
  destruct (status_code r =? 200); [done|].
  unfold bind, lift, response_json.
  destruct (body_json r) as [[members|]|]; done.
Qed.

(** X13.  [send_test_email] checks the sender before anything leaves: with
    an API key but an empty [from_email] it answers
    [(False, "From email is not configured.")] and the world is unchanged. *)
Theorem send_test_email_without_sender
    (p : option Z) (c : ResendConfiguration) (to_email : string) (w : world) :
  truthy (resend_api_key c) = true -> from_email c = "" ->
  send_test_email (Instance p (FResend c)) to_email w
  = (Ok (false, "From email is not configured."), w).
Proof.
  intros Hkey Hfrom. unfold send_test_email, bind, lift. simpl.
  by rewrite Hkey, Hfrom.
Qed.

(** X14.  With an API key and a sender, [send_test_email] makes exactly one
    request, with the fixed subject and body and a 10 second timeout; status
    200 gives [(True, "Test email sent successfully to <address>")], a
    timeout gives its own message, another transport error gives the failure
    message with the cause; a rejection gives the provider's message from a
    JSON object body (or the raw text), a failure message for a body that is
    no JSON, and raises on a JSON body that is not an object. *)
Theorem send_test_email_reports_each_outcome
    (p : option Z) (c : ResendConfiguration) (to_email : string) (w : world) :
  truthy (resend_api_key c) = true -> truthy (from_email c) = true ->
  let req := resend_request c to_email "Test Email - Turbo Configuration" test_email_html in
  let out := send_test_email (Instance p (FResend c)) to_email w in
  out.2 = set_calls (calls w ++ [RequestsPost req]) w /\
  req_timeout req = 10 /\
  match post_answer (net w) (calls w) req with
  | PostReturns r =>
      if status_code r =? 200
      then out.1 = Ok (true, "Test email sent successfully to " +:+ to_email)
      else match body_json r with
           | Some (JsonObject members) =>
               out.1 = Ok (false, "Failed to send email: "
                                  +:+ default (text r) (members !! "message"))
           | Some JsonOther => exists e, out.1 = Raise e
           | None => exists m, out.1 = Ok (false, "Failed to send email: " +:+ m)
           end
  | PostTimeout _ => out.1 = Ok (false, "Request timed out. Please try again.")
  | PostFails m => out.1 = Ok (false, "Failed to send email: " +:+ m)
  end.
Proof.
  intros Hkey Hfrom req out. subst out.
  rewrite send_test_email_resend by done. fold req. simpl.
  split_and!; [done|done|].
  destruct (post_answer (net w) (calls w) req) as [r|m|m]; [|done|done].
  destruct (status_code r =? 200); [done|].
  destruct (body_json r) as [[members|]|]; [done|by eexists|by eexists].
Qed.

Lemma send_test_email_frame config to_email w :
  let w1 := (send_test_email config to_email w).2 in
  tables w1 = tables w /\ cache w1 = cache w /\ clock w1 = clock w.
Proof.
  destruct config as [p [c|c|c|c]].
  - done.
  - destruct (truthy (resend_api_key c)) eqn:Hkey.
    + destruct (truthy (from_email c)) eqn:Hfrom.
      * by rewrite send_test_email_resend.
      * unfold send_test_email, bind, lift. simpl. by rewrite Hkey, Hfrom.
    + unfold send_test_email, bind, lift. simpl. by rewrite Hkey.
  - unfold send_test_email, bind, lift. simpl. by destruct (truthy (tinymce_api_key c)).
  - unfold send_test_email, bind, lift. simpl. by destruct (truthy (cloudinary_api_key c)).
Qed.

(** X15.  The test view records the outcome on the stored record: after a
    test with a non-empty address, the row at key 1 holds the submitted
    record with [last_test_status] set to [success] or [failed] as
    [send_test_email] reported, [last_test_at] set to the current time on
    success and left alone on failure, and every other field unchanged; the
    cache entry is dropped, and the administrator sees the message. *)
Theorem test_view_records_outcome
    (key : Z) (test_email : string) (w : world) (p : option Z)
    (c : ResendConfiguration) (success : bool) (message : string) (w1 : world) :
  truthy test_email = true ->
  tables w !! (Resend, key) = Some (Instance p (FResend c)) ->
  send_test_email (Instance p (FResend c)) test_email w = (Ok (success, message), w1) ->
  let out := ResendConfigurationAdmin.send_test_email_view key test_email w in
  out.1 = Ok ([if success then FlashSuccess message else FlashError message],
              ResendConfigurationAdmin.change_redirect key) /\
  tables out.2 !! (Resend, 1) =
    Some (Instance (Some 1) (FResend {|
      resend_is_active := resend_is_active c; resend_api_key := resend_api_key c;
      from_email := from_email c; from_name := from_name c;
      last_test_at := if success then Some (clock w) else last_test_at c;
      last_test_status := if success then "success" else "failed" |})) /\
  cache out.2 !! cache_key Resend = None /\
  calls out.2 = calls w1.
Proof.
  intros Hto Hrow Hsend out.
  destruct (send_test_email_frame (Instance p (FResend c)) test_email w) as (_ & _ & Hclock).
  rewrite Hsend in Hclock. simpl in Hclock.
  set (recorded := Instance p (FResend {|
      resend_is_active := resend_is_active c; resend_api_key := resend_api_key c;
      from_email := from_email c; from_name := from_name c;
      last_test_at := if success then Some (clock w) else last_test_at c;
      last_test_status := if success then "success" else "failed" |})).
  assert (Hout : out =
    (Ok ([if success then FlashSuccess message else FlashError message],
         ResendConfigurationAdmin.change_redirect key),
     (save recorded w1).2)).
  { subst out recorded. unfold ResendConfigurationAdmin.send_test_email_view.
    unfold bind at 1. unfold ResendConfigurationAdmin.get_object. rewrite Hrow, Hto.
    cbn [negb]. unfold bind at 1. unfold ret at 1. unfold bind at 1. rewrite Hsend.
    cbn [fst snd]. destruct success.
    - unfold bind at 1. unfold timezone_now. unfold bind. rewrite !save_eq.
      by rewrite Hclock.
    - unfold bind. by rewrite !save_eq. }
  rewrite Hout, save_eq. simpl.
  split_and!; [done|apply lookup_insert_eq|apply lookup_delete_eq|done].
Qed.

(** X16.  The test view on a key that has no row asks for the address
    first: with an empty address it only reports the missing address, and
    with an address it raises, since there is no record to read the API key
    from.  Nothing is sent or stored in either case. *)
Theorem test_view_without_record (key : Z) (test_email : string) (w : world) :
  tables w !! (Resend, key) = None ->
  ResendConfigurationAdmin.send_test_email_view key test_email w =
    (if truthy test_email
     then Raise (Exn AttributeError "api_key")
     else Ok ([FlashError "Please provide a test email address."],
              ResendConfigurationAdmin.change_redirect key),
     w).
Proof.
  intros Hrow. unfold ResendConfigurationAdmin.send_test_email_view.
  unfold bind at 1. unfold ResendConfigurationAdmin.get_object. rewrite Hrow.
  by destruct (truthy test_email).
Qed.

End EmailMore.

(** ** Further properties of the media helpers and the hook *)

Section MediaMore.

Import SingletonModel.

Lemma upload_to_cloudinary_configured file folder transformation timeout w p c w1 :
  get_cloudinary_config w = (Ok (Some (Instance p (FCloudinary c))), w1) ->
  let w2 := set_sdk_config (Some (cloud_name c, cloudinary_api_key c, api_secret c)) w1 in
  exists params,
    upload_to_cloudinary file folder transformation timeout w =
      (Ok (match upload_answer (net w2) (calls w2) file params with
           | UploadReturns u => u
           | UploadRaises _ => None
           end),
       set_calls (calls w2 ++ [UploaderUpload file params]) w2) /\
    up_resource_type params = "image" /\ up_timeout params = timeout /\
    up_folder params = (if truthy_opt folder then default "" folder else default_folder c) /\
    up_transformation params =
      (if truthy_dict transformation
       then if auto_optimize c
            then Some (default ∅ transformation
                       ∪ <["quality" := "auto:good"]> (<["fetch_format" := "auto"]> ∅))
            else transformation
       else if auto_optimize c
            then Some (<["quality" := "auto:good"]> (<["fetch_format" := "auto"]> ∅))
            else None).
Proof.
  intros Hget w2.
  unfold upload_to_cloudinary. unfold bind at 1. rewrite Hget.
  unfold try_except. unfold bind at 1. rewrite configure_cloudinary_instance. fold w2.
  assert (Hfolder :
    match folder with
    | Some f => if truthy f then ret f else lift (get_default_folder (Instance p (FCloudinary c)))
    | None => lift (get_default_folder (Instance p (FCloudinary c)))
    end w2 = (Ok (if truthy_opt folder then default "" folder else default_folder c), w2)).
  { destruct folder as [f|]; [|done]. simpl. by destruct (truthy f). }
  unfold bind at 1. rewrite Hfolder.
  unfold bind at 1. unfold lift at 1. cbn [get_auto_optimize attrs].
  match goal with |- context [uploader_upload file ?q] => exists q end.
  unfold uploader_upload.
  split.
  - by destruct (upload_answer _ _ _ _).
  - split_and!; [done|done|done|]. cbn [up_transformation].
    destruct (truthy_dict transformation) eqn:Ht; [|done].
    destruct (auto_optimize c); [|done].
    by destruct transformation.
Qed.

(** X17.  With Cloudinary configured, [upload_to_cloudinary] makes exactly
    one request and never raises: an image upload with the given timeout,
    into the caller's folder when that is non-empty and into the configured
    default folder otherwise.  With optimisation on, the request asks for
    [quality = auto:good] and [fetch_format = auto], except for the keys
    the caller sets, which win; with it off, the caller's transformation
    goes through as given.  The answer is the host's [secure_url], or
    [None] when the host raises. *)
Theorem upload_request_is_built_from_settings
    (file : string) (folder : option string) (transformation : option (gmap string string))
    (timeout : Z) (w : world) (p : option Z) (c : CloudinaryConfiguration) (w1 : world) :
  typed w ->
  get_cloudinary_config w = (Ok (Some (Instance p (FCloudinary c))), w1) ->
  let out := upload_to_cloudinary file folder transformation timeout w in
  exists params,
    calls out.2 = (calls w ++ [UploaderUpload file params])%list /\
    out.1 = Ok (match upload_answer (net w) (calls w) file params with
                | UploadReturns u => u
                | UploadRaises _ => None
                end) /\
    sdk_config out.2 = Some (cloud_name c, cloudinary_api_key c, api_secret c) /\
    up_resource_type params = "image" /\ up_timeout params = timeout /\
    up_folder params = (if truthy_opt folder then default "" folder else default_folder c) /\
    (forall key,
       default ∅ (up_transformation params) !! key =
         match (if truthy_dict transformation then default ∅ transformation else ∅) !! key with
         | Some v => Some v
         | None =>
             if auto_optimize c
             then (<["quality" := "auto:good"]> (<["fetch_format" := "auto"]> ∅)
                   : gmap string string) !! key
             else None
         end).
Proof.
  intros Hw Hget out.
  destruct (get_cloudinary_config_spec w Hw)
    as (o & w1' & Hget' & _ & (_ & _ & Hcalls & Hnet) & _).
  rewrite Hget in Hget'. injection Hget' as <- <-.
  destruct (upload_to_cloudinary_configured file folder transformation timeout w p c w1 Hget)
    as (params & Hup & H1 & H2 & H3 & H4).
  exists params. subst out. rewrite Hup. simpl. rewrite Hnet, Hcalls.
  split_and!; try done.
  intros key. rewrite H4.
  destruct (truthy_dict transformation) eqn:Ht.
  - destruct transformation as [extra|]; [|done]. simpl.
    destruct (auto_optimize c); simpl.
    + rewrite lookup_union.
      destruct (extra !! key) as [v|];
        match goal with |- context [?m !! key] => destruct (m !! key) end; done.
    + by destruct (extra !! key).
  - rewrite lookup_empty. by destruct (auto_optimize c).
Qed.

(** X18.  While the stored Cloudinary record is inactive or lacks a
    credential, neither helper sends anything or touches the SDK
    configuration: the upload answers [None], the delete [False]. *)
Theorem media_helpers_need_configuration
    (file : string) (folder : option string) (transformation : option (gmap string string))
    (timeout : Z) (url : string) (w : world) :
  typed w ->
  exists r w1,
    load Cloudinary w = (Ok r, w1) /\
    calls w1 = calls w /\ sdk_config w1 = sdk_config w /\
    (configured r = false ->
       upload_to_cloudinary file folder transformation timeout w = (Ok None, w1) /\
       delete_from_cloudinary url w = (Ok false, w1)).
Proof.
  intros Hw.
  destruct (get_config_spec Cloudinary w Hw)
    as (r & w1 & Hload & _ & _ & (_ & _ & Hcalls & _) & Hsdk & Hget).
  exists r, w1. split_and!; [done|done|done|]. intros Hr.
  rewrite Hr in Hget. simpl in Hget.
  unfold upload_to_cloudinary, delete_from_cloudinary, bind. by rewrite Hget.
Qed.

(** X19.  A URL that has no [upload] segment, or nothing after it, never
    reaches the host: the lookup fails inside the helper, which answers
    [False] without a request and without raising. *)
Theorem delete_without_upload_segment (url : string) (w : world) :
  typed w ->
  "upload" ∉ Py.split "/" url \/
  (exists pre, Py.split "/" url = (pre ++ ["upload"])%list /\ "upload" ∉ pre) ->
  exists w',
    delete_from_cloudinary url w = (Ok false, w') /\ calls w' = calls w.
Proof.
  intros Hw Hurl.
  destruct (get_cloudinary_config_spec w Hw)
    as (o & w1 & Hget & _ & (_ & _ & Hcalls & _) & Ho).
  destruct o as [config|].
  2: { exists w1. unfold delete_from_cloudinary, bind. by rewrite Hget. }
  destruct Ho as (p & c & ->).
  rewrite (delete_from_cloudinary_configured url w p c w1 Hget). cbv zeta.
  exists (set_sdk_config (Some (cloud_name c, cloudinary_api_key c, api_secret c)) w1).
  split; [|exact Hcalls].
  destruct (_ && _); [|done].
  destruct Hurl as [Hno|(pre & Hsplit & Hpre)].
  - destruct (index_raises "upload" _ Hno) as [e ->]. done.
  - rewrite Hsplit, index_found by done.
    rewrite drop_ge by (rewrite length_app; simpl; lia). done.
Qed.

End MediaMore.

Section HookMore.

Import SingletonModel.

(** X20.  The hook never raises and touches only the picture fields: the
    instance leaves it either as submitted, or with a non-empty URL in
    [profile_picture_url] and no file; its key, user name and e-mail address
    are as submitted, and the table of users and the clock are unchanged. *)
Theorem hook_touches_only_picture_fields (instance : User) (w : world) :
  typed w ->
  exists instance' w',
    upload_profile_picture_to_cloudinary instance w = (Ok instance', w') /\
    (instance' = instance \/
     exists url, truthy url = true /\ instance' = with_remote_url url instance) /\
    user_pk instance' = user_pk instance /\
    username instance' = username instance /\
    email instance' = email instance /\
    users w' = users w /\ clock w' = clock w /\ typed w'.
Proof.
  intros Hw.
  assert (Hfinish : forall file w1, typed w1 -> users w1 = users w -> clock w1 = clock w ->
    exists instance' w',
      (do url <- upload_to_cloudinary file (Some "users/profile_pictures") None 30;
       match url with
       | Some url => if truthy url then ret (with_remote_url url instance) else ret instance
       | None => ret instance
       end) w1 = (Ok instance', w') /\
      (instance' = instance \/
       exists url, truthy url = true /\ instance' = with_remote_url url instance) /\
      user_pk instance' = user_pk instance /\
      username instance' = username instance /\
      email instance' = email instance /\
      users w' = users w /\ clock w' = clock w /\ typed w').
  { intros file w1 Hw1 Hu1 Hc1.
    destruct (upload_to_cloudinary_spec file "users/profile_pictures" w1 Hw1 eq_refl)
      as (url & w' & Hup & Hw' & Hc & Hu & _ & _).
    unfold bind. rewrite Hup.
    destruct url as [u|]; [destruct (truthy u) eqn:Htruthy|].
    - exists (with_remote_url u instance), w'.
      split_and!; try done; [right; by exists u|congruence|congruence].
    - exists instance, w'. split_and!; try done; [by left|congruence|congruence].
    - exists instance, w'. split_and!; try done; [by left|congruence|congruence]. }
  assert (Hsame : exists instance' w',
      (Ok instance, w) = (Ok instance', w') /\
      (instance' = instance \/
       exists url, truthy url = true /\ instance' = with_remote_url url instance) /\
      user_pk instance' = user_pk instance /\
      username instance' = username instance /\
      email instance' = email instance /\
      users w' = users w /\ clock w' = clock w /\ typed w').
  { exists instance, w. split_and!; try done. by left. }
  destruct (pk_truthy (user_pk instance)) eqn:Hpk.
  - rewrite hook_existing by done.
    destruct (stored_user instance w) as [old|]; [|done].
    destruct (profile_picture instance) as [file|]; [|done].
    destruct (_ && _); [|done].
    unfold bind at 1.
    destruct (truthy (profile_picture_url old)).
    + destruct (delete_from_cloudinary_spec (profile_picture_url old) w Hw)
        as (b & w1 & Hd & Hw1 & Hc1 & Hu1 & _ & _).
      unfold bind at 1. rewrite Hd. cbn [ret]. by apply Hfinish.
    + cbn [ret]. by apply Hfinish.
  - destruct (profile_picture instance) as [file|] eqn:Hpic.
    + destruct (truthy file) eqn:Hfile.
      * rewrite (hook_new _ file) by done. by apply Hfinish.
      * unfold upload_profile_picture_to_cloudinary. by rewrite Hpk, Hpic, Hfile.
    + unfold upload_profile_picture_to_cloudinary. by rewrite Hpk, Hpic.
Qed.

(** X21.  An instance that carries a key without a stored row behind it is
    left alone, file attached or not: the hook returns it as submitted,
    uploads nothing and changes nothing. *)
Theorem hook_skips_unknown_key (instance : User) (w : world) :
  pk_truthy (user_pk instance) = true ->
  stored_user instance w = None ->
  upload_profile_picture_to_cloudinary instance w = (Ok instance, w).
Proof. intros Hpk Hnone. by rewrite hook_existing, Hnone. Qed.

Lemma contains_nonempty sub s : Py.contains sub s = true -> sub <> "" -> truthy s = true.
Proof. destruct s; [|done]. by destruct sub. Qed.

Lemma delete_from_cloudinary_sends url w p c w1 pre first rest :
  get_cloudinary_config w = (Ok (Some (Instance p (FCloudinary c))), w1) ->
  Py.contains "cloudinary.com" url = true ->
  Py.split "/" url = (pre ++ "upload" :: first :: rest)%list ->
  "upload" ∉ pre ->
  exists b public_id,
    delete_from_cloudinary url w =
      (Ok b,
       set_calls (calls w1 ++ [UploaderDestroy public_id])
         (set_sdk_config (Some (cloud_name c, cloudinary_api_key c, api_secret c)) w1)).
Proof.
  intros Hget Hin Hsplit Hpre.
  rewrite (delete_from_cloudinary_configured url w p c w1 Hget). cbv zeta.
  rewrite Hin, Hsplit, index_found, drop_past_prefix by done.
  assert (Hlen : (2 <=? List.length (pre ++ "upload" :: first :: rest))%nat = true).
  { apply Nat.leb_le. rewrite length_app. simpl. lia. }
  rewrite Hlen. cbn [andb]. unfold Py.getitem at 1. cbn [lookup list_lookup].
  match goal with |- context [Py.rsplit1 "." ?j] =>
    destruct (rsplit1_head j) as (public_id & -> & _) end.
  by eexists _, public_id.
Qed.

(** X22.  A replacement is not undone when the upload fails.  For a stored
    user whose file is replaced while the media host accepts no upload, the
    hook still sends the destroy request for the stored picture and then
    returns the instance as submitted, its URL field included. *)
Theorem failed_replacement_keeps_submitted_url
    (instance old_instance : User) (file : string) (w : world)
    (p : option Z) (c : CloudinaryConfiguration) (w0 : world)
    (pre : list string) (first : string) (rest : list string) :
  typed w ->
  pk_truthy (user_pk instance) = true ->
  stored_user instance w = Some old_instance ->
  profile_picture instance = Some file -> truthy file = true ->
  profile_picture old_instance <> Some file ->
  get_cloudinary_config w = (Ok (Some (Instance p (FCloudinary c))), w0) ->
  Py.contains "cloudinary.com" (profile_picture_url old_instance) = true ->
  Py.split "/" (profile_picture_url old_instance)
    = (pre ++ "upload" :: first :: rest)%list ->
  "upload" ∉ pre ->
  (forall trace f q, exists m, upload_answer (net w) trace f q = UploadRaises m) ->
  exists public_id w',
    upload_profile_picture_to_cloudinary instance w = (Ok instance, w') /\
    UploaderDestroy public_id ∈ calls w'.
Proof.
  intros Hw Hpk Hold Hpic Hfile Hne Hget Hin Hsplit Hpre Hdown.
  rewrite hook_existing, Hold, Hpic, Hfile by done.
  rewrite bool_decide_false by congruence. cbn [andb negb].
  rewrite (contains_nonempty "cloudinary.com" _ Hin) by done.
  destruct (delete_from_cloudinary_sends _ w p c w0 pre first rest Hget Hin Hsplit Hpre)
    as (b & public_id & Hd).
  destruct (delete_from_cloudinary_spec (profile_picture_url old_instance) w Hw)
    as (b' & w1 & Hd' & Hw1 & _ & _ & Hn1 & _).
  rewrite Hd in Hd'. injection Hd' as <- Hw1eq.
  unfold bind at 1. unfold bind at 1. rewrite Hd. cbn [ret]. rewrite Hw1eq.
  destruct (upload_to_cloudinary_spec file "users/profile_pictures" w1 Hw1 eq_refl)
    as (url & w2 & Hup & _ & _ & _ & _ & Hc2).
  unfold bind. rewrite Hup.
  assert (Hurl : url = None).
  { destruct Hc2 as [[_ ->]|(q & _ & _ & _ & _ & ->)]; [done|].
    rewrite Hn1. by destruct (Hdown (calls w1) file q) as [m ->]. }
  subst url. exists public_id, w2. split; [done|].
  assert (Hin1 : UploaderDestroy public_id ∈ calls w1).
  { rewrite <- Hw1eq. simpl. apply elem_of_app. right. apply list_elem_of_singleton. done. }
  destruct Hc2 as [[-> _]|(q & _ & _ & _ & -> & _)]; [done|].
  apply elem_of_app. by left.
Qed.

End HookMore.

(** ** The hook's requests *)

Section HookClaims.

Import SingletonModel.

(** *** URLs of the media host *)












(** *** The accessor after a first call *)



(** What the hook makes of the upload's answer. *)
Lemma hook_finish url instance w :
  match url with
  | Some url => if truthy url then ret (with_remote_url url instance) else ret instance
  | None => ret instance
  end w = (Ok (after_upload url instance), w).
Proof.
  destruct url as [url|]; [|done]. simpl. by destruct (truthy url).
Qed.

(** C4.  On a new instance with a file attached the hook uploads the file
    under [users/profile_pictures].  With Cloudinary configured exactly one
    request leaves: an image upload of that file into that folder with a 30
    second timeout.  When the host answers with a non-empty [secure_url],
    the instance leaves the hook with that URL and no file; when the upload
    raises or gives no URL, it leaves the hook exactly as submitted.  With
    Cloudinary not configured the upload gives no URL without a request, and
    the instance is as submitted.  The hook returns normally in every case,
    so the save goes on. *)
Theorem new_entity_upload_sets_url_or_keeps_fields
    (instance : User) (file : string) (w : world) :
  typed w ->
  pk_truthy (user_pk instance) = false ->
  profile_picture instance = Some file -> truthy file = true ->
  exists r w1,
    load Cloudinary w = (Ok r, w1) /\
    let out := upload_profile_picture_to_cloudinary instance w in
    if configured r
    then exists params,
           calls out.2 = (calls w ++ [UploaderUpload file params])%list /\
           up_folder params = "users/profile_pictures" /\
           up_resource_type params = "image" /\ up_timeout params = 30 /\
           out.1 = Ok (after_upload
                         (secure_url_of (upload_answer (net w) (calls w) file params))
                         instance)
    else out = (Ok instance, w1) /\ calls w1 = calls w.
Proof.
  intros Hw Hpk Hpic Hfile.
  destruct (get_config_spec Cloudinary w Hw)
    as (r & w1 & Hload & Hk & Hw1 & (_ & _ & Hcalls & Hnet) & _ & Hget).
  exists r, w1. split; [done|]. cbv zeta.
  rewrite (hook_new _ file) by done. simpl in Hget.
  destruct (configured r) eqn:Hconf.
  - destruct r as [p [c|c|c|c]]; try done.
    destruct (upload_to_cloudinary_configured file (Some "users/profile_pictures") None 30
                w p c w1 Hget) as (params & Hup & H1 & H2 & H3 & _).
    exists params. unfold bind. rewrite Hup, hook_finish. simpl.
    rewrite Hcalls, Hnet. by split_and!.
  - unfold bind, upload_to_cloudinary, bind. by rewrite Hget.
Qed.


(** C6 on the code.  The helper takes any first segment that starts with
    [v] for a version and cuts the identifier at the last dot of the whole
    path.  For a picture [beach.jpg] stored without a version in the folder
    [vacation] it asks the host to destroy [beach], not [vacation/beach];
    and for a picture [abc] without an extension under [v1/my.folder] it
    asks for [my], not [my.folder/abc]. *)
Theorem delete_mistakes_folder_for_version :
  (delete_from_cloudinary folder_like_version_url media_world).1 = Ok true /\
  calls (delete_from_cloudinary folder_like_version_url media_world).2
    = [UploaderDestroy "beach"] /\
  calls (delete_from_cloudinary dotted_folder_url media_world).2
    = [UploaderDestroy "my"].
Proof. vm_compute. by split_and!. Qed.

End HookClaims.

(** ** The blog models and the post form *)

Section BlogMore.

Variable slugify : string -> string.
Variable Model_save : forall A : Type, A -> M A.
Variable save_m2m : M unit.

(** X23.  [Category.save] and [Tag.save] fill in a missing slug only: the
    instance handed to the base save carries the submitted slug when that is
    non-empty, and [slugify] of the name otherwise; an explicit slug
    survives a change of the name, and saving what was handed over hands
    over the same instance again. *)
Theorem category_and_tag_save_fill_missing_slug (category : Category) (tag : Tag) (w : world) :
  (exists category',
     Category_save slugify Model_save category w = Model_save Category category' w /\
     category_slug category' =
       (if truthy (category_slug category) then category_slug category
        else slugify (category_name category)) /\
     category_name category' = category_name category /\
     category_pk category' = category_pk category /\
     category_description category' = category_description category /\
     forall w2,
       Category_save slugify Model_save category' w2 = Model_save Category category' w2) /\
  (exists tag',
     Tag_save slugify Model_save tag w = Model_save Tag tag' w /\
     tag_slug tag' =
       (if truthy (tag_slug tag) then tag_slug tag else slugify (tag_name tag)) /\
     tag_name tag' = tag_name tag /\ tag_pk tag' = tag_pk tag /\
     forall w2, Tag_save slugify Model_save tag' w2 = Model_save Tag tag' w2).
Proof.
  split.
  - unfold Category_save.
    destruct (truthy (category_slug category)) eqn:Hslug; cbn [negb].
    + exists category. split_and!; try done. intros w2. by rewrite Hslug.
    + eexists. split_and!; try done. intros w2. cbn [category_slug set_category_slug].
      destruct (truthy (slugify (category_name category))) eqn:H; cbn [negb]; [done|].
      cbn [category_name set_category_slug]. done.
  - unfold Tag_save.
    destruct (truthy (tag_slug tag)) eqn:Hslug; cbn [negb].
    + exists tag. split_and!; try done. intros w2. by rewrite Hslug.
    + eexists. split_and!; try done. intros w2. cbn [tag_slug set_tag_slug].
      destruct (truthy (slugify (tag_name tag))) eqn:H; cbn [negb]; [done|].
      cbn [tag_name set_tag_slug]. done.
Qed.

(** X24.  [Post.save] stamps the first publication and nothing else: the
    instance handed to the base save has the submitted slug, or [slugify]
    of the title when that is empty; its [published_at] is the submitted one
    when set, the current time when the post is published without one, and
    stays unset for any other status.  Every other field is as submitted,
    and saving what was handed over, at any later time, hands over the same
    instance: a publication time is never moved. *)
Theorem post_save_stamps_first_publication (post : Post) (w : world) :
  exists post',
    Post_save slugify Model_save post w = Model_save Post post' w /\
    post_slug post' =
      (if truthy (post_slug post) then post_slug post else slugify (post_title post)) /\
    published_at post' =
      match published_at post with
      | Some t => Some t
      | None => if String.eqb (post_status post) "published" then Some (clock w) else None
      end /\
    post_pk post' = post_pk post /\ post_title post' = post_title post /\
    post_status post' = post_status post /\
    featured_image_url post' = featured_image_url post /\
    author post' = author post /\ category post' = category post /\
    post_excerpt post' = post_excerpt post /\ post_content post' = post_content post /\
    is_featured post' = is_featured post /\
    meta_title post' = meta_title post /\ meta_description post' = meta_description post /\
    forall w2, Post_save slugify Model_save post' w2 = Model_save Post post' w2.
Proof.
  assert (Hstable : forall q w2,
    (truthy (post_slug q) = true \/ slugify (post_title q) = post_slug q) ->
    (String.eqb (post_status q) "published" = true -> is_Some (published_at q)) ->
    Post_save slugify Model_save q w2 = Model_save Post q w2).
  { intros q w2 Hslug Hpub. unfold Post_save.
    assert (Hq : (if negb (truthy (post_slug q))
                  then set_post_slug (slugify (post_title q)) q else q) = q).
    { destruct Hslug as [->|Heq]; [done|].
      destruct (truthy (post_slug q)); [done|]. cbn [negb]. rewrite Heq. by destruct q. }
    rewrite Hq. unfold bind.
    destruct (String.eqb (post_status q) "published") eqn:Hstatus; [|done].
    by rewrite bool_decide_true by auto. }
  unfold Post_save at 1.
  set (q := if negb (truthy (post_slug post))
            then set_post_slug (slugify (post_title post)) post else post).
  assert (Hq : post_slug q = (if truthy (post_slug post) then post_slug post
                              else slugify (post_title post)) /\
               (truthy (post_slug q) = true \/ slugify (post_title q) = post_slug q) /\
               published_at q = published_at post /\ post_status q = post_status post /\
               post_pk q = post_pk post /\ post_title q = post_title post /\
               featured_image_url q = featured_image_url post /\
               author q = author post /\ category q = category post /\
               post_excerpt q = post_excerpt post /\ post_content q = post_content post /\
               is_featured q = is_featured post /\
               meta_title q = meta_title post /\ meta_description q = meta_description post).
  { subst q. destruct (truthy (post_slug post)) eqn:Hslug; cbn [negb].
    - rewrite Hslug. split_and!; auto.
    - split_and!; auto. }
  destruct Hq as (Hq1 & Hq2 & Hq3 & Hq4 & Hq5 & Hq6 & Hq7 & Hq7a & Hq7b & Hq8 & Hq9 & Hq10
                  & Hq11 & Hq12).
  clearbody q. unfold bind.
  destruct (String.eqb (post_status q) "published") eqn:Hstatus.
  - destruct (published_at q) as [t|] eqn:Hpub.
    + rewrite bool_decide_true by eauto. cbn [andb negb ret].
      exists q. rewrite <- Hq3, <- Hq4, ?Hstatus, ?Hpub. split_and!; try done.
      intros w2. apply Hstable; [done|]. rewrite Hpub. eauto.
    + rewrite bool_decide_false by (intros [? ?]; done). cbn [andb negb].
      unfold timezone_now, ret.
      exists (set_published_at (Some (clock w)) q).
      rewrite <- Hq3, <- Hq4, ?Hstatus, ?Hpub. split_and!; try done.
      intros w2. apply Hstable; [by destruct q|]. intros _. simpl. eauto.
  - cbn [andb ret]. exists q. rewrite <- Hq3, <- Hq4, ?Hstatus.
    split_and!; try done; [by destruct (published_at q)|].
    intros w2. apply Hstable; [done|]. by rewrite Hstatus.
Qed.

(** X25.  The post form uploads a submitted picture under [blog/featured]
    and never asks the host to delete anything: at most one request leaves,
    an upload of that file.  A non-empty URL coming back replaces
    [featured_image_url]; otherwise the URL typed into the form stays.  With
    [commit] set the instance then goes through [Post.save] and the
    many-to-many save; without it nothing more happens. *)
Theorem post_form_uploads_and_never_deletes
    (instance : Post) (file : string) (w : world) :
  typed w -> truthy file = true ->
  exists url w',
    upload_to_cloudinary file (Some "blog/featured") None 30 w = (Ok url, w') /\
    (calls w' = calls w \/
     exists q, calls w' = (calls w ++ [UploaderUpload file q])%list /\
               up_folder q = "blog/featured") /\
    let instance' := if truthy_opt url
                     then set_featured_image_url (default "" url) instance
                     else instance in
    PostAdminForm_save slugify Model_save save_m2m instance (Some file) false w
      = (Ok instance', w') /\
    PostAdminForm_save slugify Model_save save_m2m instance (Some file) true w
      = (do saved <- Post_save slugify Model_save instance'; save_m2m;; ret saved) w'.
Proof.
  intros Hw Hfile.
  destruct (upload_to_cloudinary_spec file "blog/featured" w Hw eq_refl)
    as (url & w' & Hup & _ & _ & _ & _ & Hcalls).
  exists url, w'. split; [done|]. split.
  { destruct Hcalls as [[? _]|(q & ? & _ & _ & ? & _)]; [by left|right; by exists q]. }
  intros instance'. subst instance'.
  unfold PostAdminForm_save. rewrite Hfile.
  split.
  - unfold bind. rewrite Hup. destruct url as [u|]; [|done]. simpl. by destruct (truthy u).
  - unfold bind at 1. unfold bind at 1. rewrite Hup.
    destruct url as [u|]; [|done]. simpl. by destruct (truthy u).
Qed.

End BlogMore.

(** ** The settings pages of the admin *)

Section AdminMore.

Import SingletonModel.

(** X26.  The settings list page always leads to record 1: in every
    reachable world [changelist_view] redirects to the change page of the
    model with key 1, creating the default record when the table is empty,
    and afterwards the table holds exactly one row and [has_add_permission]
    answers [False]. *)
Theorem changelist_leads_to_the_one_record (model : kind) (w : world) :
  reachable w ->
  exists w',
    SingletonModelAdmin.changelist_view model w =
      (Ok {| url_name := "admin:settings_config_" +:+ model_name model +:+ "_change";
             url_arg := Some 1 |}, w') /\
    size (rows_of model w') = 1%nat /\
    SingletonModelAdmin.has_add_permission model w' = (Ok false, w').
Proof.
  intros Hr. destruct (reachable_settled w Hr) as (_ & Hk & _).
  assert (Hone : forall w' row, keyed w' -> tables w' !! (model, 1) = Some row ->
            size (rows_of model w') = 1%nat /\
            SingletonModelAdmin.has_add_permission model w' = (Ok false, w')).
  { intros w' row Hk' Hrow.
    assert (Hsize : size (rows_of model w') = 1%nat).
    { rewrite (rows_of_fixed_key _ _ row); [apply map_size_singleton| |done].
      by apply keyed_only_fixed_key. }
    split; [done|].
    unfold SingletonModelAdmin.has_add_permission, SingletonModelAdmin.objects_exists, bind, ret.
    unfold rows_of in Hsize. by rewrite Hsize. }
  unfold SingletonModelAdmin.changelist_view, bind.
  destruct (tables w !! (model, 1)) as [row|] eqn:Hrow.
  - rewrite (get_or_create_row _ _ row) by done. exists w. simpl.
    destruct (Hk _ _ _ Hrow) as [_ ->]. split; [done|]. by apply (Hone w row).
  - rewrite get_or_create_new by done. eexists. split; [reflexivity|].
    apply (Hone _ (default_instance model)).
    + intros k z r. simpl. intros [[[= <- <-] <-]|[_ Hx]]%lookup_insert_Some; [done|]. eauto.
    + simpl. apply lookup_insert_eq.
Qed.

(** X27.  [has_add_permission] is granted exactly while the model's table
    is empty, and it changes nothing. *)
Theorem add_permission_only_on_empty_table (model : kind) (w : world) :
  exists b,
    SingletonModelAdmin.has_add_permission model w = (Ok b, w) /\
    (b = true <-> forall z, tables w !! (model, z) = None).
Proof.
  eexists. split; [reflexivity|].
  change (filter (fun kv => kv.1.1 = model) (tables w)) with (rows_of model w).
  rewrite negb_involutive, Nat.eqb_eq, map_size_empty_iff. split.
  - intros Hempty z. apply eq_None_not_Some. intros [r Hr].
    assert (Hin : rows_of model w !! (model, z) = Some r)
      by by apply map_lookup_filter_Some.
    rewrite Hempty in Hin. by rewrite lookup_empty in Hin.
  - intros Hnone. apply map_eq. intros [k z]. rewrite lookup_empty.
    apply eq_None_not_Some. intros [r [Hr Hkm]%map_lookup_filter_Some].
    simpl in Hkm. subst k. by rewrite Hnone in Hr.
Qed.

End AdminMore.

(** ** The further properties at the sample worlds *)

Section SamplesMore.

Import SingletonModel.

Lemma reachable_resend_cached : reachable resend_cached.
Proof. apply reach_load, reach_save, reach_startup. Qed.

Lemma typed_resend_configured : typed (resend_configured unreachable).
Proof. apply typed_save, typed_startup. Qed.

Lemma typed_media_world_uploads_refused : typed media_world_uploads_refused.
Proof.
  apply typed_intro; simpl.
  - by intros k z r [[= <- <-] <-]%lookup_singleton_Some.
  - intros k v e. by rewrite lookup_empty.
Qed.

Lemma reachable_tables_are_singletons_witness :
  reachable resend_cached /\
  only_fixed_key Resend resend_cached /\
  (size (rows_of Resend resend_cached) <= 1)%nat /\
  (forall r, tables resend_cached !! (Resend, 1) = Some r ->
             pk r = Some 1 /\ class_of r = Resend).
Proof.
  split; [exact reachable_resend_cached|].
  exact (reachable_tables_are_singletons resend_cached Resend reachable_resend_cached).
Defined.

Lemma reachable_load_returns_stored_row_witness :
  reachable resend_cached /\
  (load Resend resend_cached).1
  = Ok (default (default_instance Resend) (tables resend_cached !! (Resend, 1))).
Proof.
  split; [exact reachable_resend_cached|].
  exact (reachable_load_returns_stored_row resend_cached Resend reachable_resend_cached).
Defined.

Lemma delete_then_load_gives_defaults_witness :
  pk (Instance (Some 1) (attrs sample_resend)) = Some 1 /\
  let self := Instance (Some 1) (attrs sample_resend) in
  let k := class_of self in
  let w1 := (delete self resend_cached).2 in
  (delete self resend_cached).1 = Ok (Instance None (attrs self)) /\
  tables w1 !! (k, 1) = None /\
  (load k w1).1 = Ok (default_instance k) /\
  tables (load k w1).2 !! (k, 1) = Some (default_instance k).
Proof.
  split; [reflexivity|].
  exact (delete_then_load_gives_defaults (Instance (Some 1) (attrs sample_resend))
           resend_cached eq_refl).
Defined.

Lemma delete_without_key_still_evicts_witness :
  pk sample_cloudinary = None /\
  (exists e, (delete sample_cloudinary media_world).1 = Raise e) /\
  tables (delete sample_cloudinary media_world).2 = tables media_world /\
  cache (delete sample_cloudinary media_world).2
  = base.delete (cache_key (class_of sample_cloudinary)) (cache media_world).
Proof.
  split; [reflexivity|].
  exact (delete_without_key_still_evicts sample_cloudinary media_world eq_refl).
Defined.

Lemma other_models_are_untouched_witness :
  Cloudinary <> class_of sample_resend /\
  (forall z, tables (save sample_resend media_world).2 !! (Cloudinary, z)
             = tables media_world !! (Cloudinary, z)) /\
  cache (save sample_resend media_world).2 !! cache_key Cloudinary
  = cache media_world !! cache_key Cloudinary /\
  (load Cloudinary (save sample_resend media_world).2).1 = (load Cloudinary media_world).1 /\
  (forall z, tables (delete sample_resend media_world).2 !! (Cloudinary, z)
             = tables media_world !! (Cloudinary, z)) /\
  cache (delete sample_resend media_world).2 !! cache_key Cloudinary
  = cache media_world !! cache_key Cloudinary /\
  (load Cloudinary (delete sample_resend media_world).2).1 = (load Cloudinary media_world).1.
Proof.
  assert (H : Cloudinary <> class_of sample_resend) by discriminate.
  split; [exact H|].
  exact (other_models_are_untouched sample_resend Cloudinary media_world H).
Defined.

Lemma configure_cloudinary_sets_credentials_witness :
  typed media_world /\
  exists p c w1,
    load Cloudinary media_world = (Ok (Instance p (FCloudinary c)), w1) /\
    (configure_cloudinary media_world).1 = Ok (configured (Instance p (FCloudinary c))) /\
    sdk_config (configure_cloudinary media_world).2 =
      (if configured (Instance p (FCloudinary c))
       then Some (cloud_name c, cloudinary_api_key c, api_secret c)
       else sdk_config media_world) /\
    calls (configure_cloudinary media_world).2 = calls media_world.
Proof.
  split; [exact typed_media_world|].
  exact (configure_cloudinary_sets_credentials media_world typed_media_world).
Defined.

Lemma editor_context_has_script_url_witness :
  typed (startup unreachable) /\
  exists p c w1 d,
    load TinyMCE (startup unreachable) = (Ok (Instance p (FTinyMCE c)), w1) /\
    get_config_dict (Instance p (FTinyMCE c)) = Ok d /\
    PostAdmin_extra_context (startup unreachable) =
      (Ok (if tinymce_is_active c && truthy (tinymce_api_key c)
           then Some (d, Some ("https://cdn.tiny.cloud/1/" +:+ tinymce_api_key c
                               +:+ "/tinymce/7/tinymce.min.js"))
           else None),
       w1).
Proof.
  split; [exact (typed_startup unreachable)|].
  exact (editor_context_has_script_url (startup unreachable) (typed_startup unreachable)).
Defined.

Lemma resend_configured_accessor :
  get_resend_config (resend_configured unreachable)
  = (Ok (Some (Instance (Some 1) (FResend sample_resend_fields))), resend_cached).
Proof. vm_compute. reflexivity. Qed.

Lemma send_email_reports_each_outcome_witness :
  typed (resend_configured unreachable) /\
  get_resend_config (resend_configured unreachable)
  = (Ok (Some (Instance (Some 1) (FResend sample_resend_fields))), resend_cached) /\
  let w := resend_configured unreachable in
  let req := resend_request sample_resend_fields "user@example.com" "Welcome!" "<p>Hi</p>" in
  let out := send_email "user@example.com" "Welcome!" "<p>Hi</p>" w in
  calls out.2 = (calls w ++ [RequestsPost req])%list /\
  req_timeout req = 10 /\ req_to req = ["user@example.com"] /\
  req_authorization req = "Bearer " +:+ resend_api_key sample_resend_fields /\
  match post_answer (net w) (calls w) req with
  | PostReturns r =>
      if status_code r =? 200 then out.1 = Ok (true, "Email sent successfully.")
      else match body_json r with
           | Some (JsonObject members) =>
               out.1 = Ok (false, "Failed to send email: "
                                  +:+ default (text r) (members !! "message"))
           | Some JsonOther => exists e, out.1 = Raise e
           | None => exists m, out.1 = Ok (false, "Failed to send email: " +:+ m)
           end
  | PostTimeout m | PostFails m => out.1 = Ok (false, "Failed to send email: " +:+ m)
  end.
Proof.
  split; [exact typed_resend_configured|]. split; [exact resend_configured_accessor|].
  exact (send_email_reports_each_outcome "user@example.com" "Welcome!" "<p>Hi</p>"
           (resend_configured unreachable) (Some 1) sample_resend_fields resend_cached
           typed_resend_configured resend_configured_accessor).
Defined.

Lemma send_email_unconfigured_sends_nothing_witness :
  typed (startup unreachable) /\
  configured (default_instance Resend) = false /\
  exists r w1,
    load Resend (startup unreachable) = (Ok r, w1) /\
    (configured r = false ->
       send_email "user@example.com" "Welcome!" "<p>Hi</p>" (startup unreachable)
         = (Ok (false, "Email service is not configured."), w1) /\
       calls w1 = calls (startup unreachable)).
Proof.
  split; [exact (typed_startup unreachable)|]. split; [reflexivity|].
  exact (send_email_unconfigured_sends_nothing "user@example.com" "Welcome!" "<p>Hi</p>"
           (startup unreachable) (typed_startup unreachable)).
Defined.

Lemma send_test_email_without_sender_witness :
  truthy (resend_api_key resend_without_sender) = true /\
  from_email resend_without_sender = "" /\
  send_test_email (Instance (Some 1) (FResend resend_without_sender)) "user@example.com"
    (startup unreachable)
  = (Ok (false, "From email is not configured."), startup unreachable).
Proof.
  split; [reflexivity|]. split; [reflexivity|].
  exact (send_test_email_without_sender (Some 1) resend_without_sender "user@example.com"
           (startup unreachable) eq_refl eq_refl).
Defined.

Lemma send_test_email_reports_each_outcome_witness :
  truthy (resend_api_key sample_resend_fields) = true /\
  truthy (from_email sample_resend_fields) = true /\
  let w := startup unreachable in
  let req := resend_request sample_resend_fields "user@example.com"
               "Test Email - Turbo Configuration" test_email_html in
  let out := send_test_email (Instance (Some 1) (FResend sample_resend_fields))
               "user@example.com" w in
  out.2 = set_calls (calls w ++ [RequestsPost req]) w /\
  req_timeout req = 10 /\
  match post_answer (net w) (calls w) req with
  | PostReturns r =>
      if status_code r =? 200
      then out.1 = Ok (true, "Test email sent successfully to " +:+ "user@example.com")
      else match body_json r with
           | Some (JsonObject members) =>
               out.1 = Ok (false, "Failed to send email: "
                                  +:+ default (text r) (members !! "message"))
           | Some JsonOther => exists e, out.1 = Raise e
           | None => exists m, out.1 = Ok (false, "Failed to send email: " +:+ m)
           end
  | PostTimeout _ => out.1 = Ok (false, "Request timed out. Please try again.")
  | PostFails m => out.1 = Ok (false, "Failed to send email: " +:+ m)
  end.
Proof.
  split; [reflexivity|]. split; [reflexivity|].
  exact (send_test_email_reports_each_outcome (Some 1) sample_resend_fields
           "user@example.com" (startup unreachable) eq_refl eq_refl).
Defined.

Lemma sample_test_is_refused :
  send_test_email (Instance (Some 1) (FResend sample_resend_fields)) "user@example.com"
    (resend_configured unreachable)
  = (Ok (false, "Failed to send email: connection refused"),
     (send_test_email (Instance (Some 1) (FResend sample_resend_fields)) "user@example.com"
        (resend_configured unreachable)).2).
Proof. vm_compute. reflexivity. Qed.

Lemma test_view_records_outcome_witness :
  truthy "user@example.com" = true /\
  tables (resend_configured unreachable) !! (Resend, 1)
  = Some (Instance (Some 1) (FResend sample_resend_fields)) /\
  let w := resend_configured unreachable in
  let w1 := (send_test_email (Instance (Some 1) (FResend sample_resend_fields))
               "user@example.com" w).2 in
  let message := "Failed to send email: connection refused" in
  send_test_email (Instance (Some 1) (FResend sample_resend_fields)) "user@example.com" w
  = (Ok (false, message), w1) /\
  let out := ResendConfigurationAdmin.send_test_email_view 1 "user@example.com" w in
  out.1 = Ok ([FlashError message], ResendConfigurationAdmin.change_redirect 1) /\
  tables out.2 !! (Resend, 1) =
    Some (Instance (Some 1) (FResend {|
      resend_is_active := resend_is_active sample_resend_fields;
      resend_api_key := resend_api_key sample_resend_fields;
      from_email := from_email sample_resend_fields;
      from_name := from_name sample_resend_fields;
      last_test_at := last_test_at sample_resend_fields;
      last_test_status := "failed" |})) /\
  cache out.2 !! cache_key Resend = None /\
  calls out.2 = calls w1.
Proof.
  assert (Hrow : tables (resend_configured unreachable) !! (Resend, 1)
                 = Some (Instance (Some 1) (FResend sample_resend_fields)))
    by (vm_compute; reflexivity).
  split; [reflexivity|]. split; [exact Hrow|]. split; [exact sample_test_is_refused|].
  exact (test_view_records_outcome 1 "user@example.com" (resend_configured unreachable)
           (Some 1) sample_resend_fields false "Failed to send email: connection refused"
           _ eq_refl Hrow sample_test_is_refused).
Defined.

Lemma test_view_without_record_witness :
  tables (startup unreachable) !! (Resend, 1) = None /\
  ResendConfigurationAdmin.send_test_email_view 1 "user@example.com" (startup unreachable) =
    (if truthy "user@example.com"
     then Raise (Exn AttributeError "api_key")
     else Ok ([FlashError "Please provide a test email address."],
              ResendConfigurationAdmin.change_redirect 1),
     startup unreachable).
Proof.
  assert (H : tables (startup unreachable) !! (Resend, 1) = None) by apply lookup_empty.
  split; [exact H|].
  exact (test_view_without_record 1 "user@example.com" (startup unreachable) H).
Defined.

Lemma media_world_accessor :
  get_cloudinary_config media_world
  = (Ok (Some (Instance (Some 1) (FCloudinary sample_cloudinary_fields))),
     (get_cloudinary_config media_world).2).
Proof. vm_compute. reflexivity. Qed.

Lemma upload_request_is_built_from_settings_witness :
  typed media_world /\
  get_cloudinary_config media_world
  = (Ok (Some (Instance (Some 1) (FCloudinary sample_cloudinary_fields))),
     (get_cloudinary_config media_world).2) /\
  let transformation : option (gmap string string) := Some {[ "quality" := "80" ]} in
  let c := sample_cloudinary_fields in
  let w := media_world in
  let out := upload_to_cloudinary "banner.png" None transformation 60 w in
  exists params,
    calls out.2 = (calls w ++ [UploaderUpload "banner.png" params])%list /\
    out.1 = Ok (match upload_answer (net w) (calls w) "banner.png" params with
                | UploadReturns u => u
                | UploadRaises _ => None
                end) /\
    sdk_config out.2 = Some (cloud_name c, cloudinary_api_key c, api_secret c) /\
    up_resource_type params = "image" /\ up_timeout params = 60 /\
    up_folder params = (if truthy_opt None then default "" None else default_folder c) /\
    (forall key,
       default ∅ (up_transformation params) !! key =
         match (if truthy_dict transformation then default ∅ transformation else ∅) !! key with
         | Some v => Some v
         | None =>
             if auto_optimize c
             then (<["quality" := "auto:good"]> (<["fetch_format" := "auto"]> ∅)
                   : gmap string string) !! key
             else None
         end).
Proof.
  split; [exact typed_media_world|]. split; [exact media_world_accessor|].
  exact (upload_request_is_built_from_settings "banner.png" None
           (Some {[ "quality" := "80" ]}) 60 media_world (Some 1) sample_cloudinary_fields _
           typed_media_world media_world_accessor).
Defined.

Lemma media_helpers_need_configuration_witness :
  typed (startup cloudinary_up) /\
  configured (default_instance Cloudinary) = false /\
  exists r w1,
    load Cloudinary (startup cloudinary_up) = (Ok r, w1) /\
    calls w1 = calls (startup cloudinary_up) /\
    sdk_config w1 = sdk_config (startup cloudinary_up) /\
    (configured r = false ->
       upload_to_cloudinary "avatar.png" (Some "users/profile_pictures") None 30
         (startup cloudinary_up) = (Ok None, w1) /\
       delete_from_cloudinary sample_old_url (startup cloudinary_up) = (Ok false, w1)).
Proof.
  split; [exact (typed_startup cloudinary_up)|]. split; [reflexivity|].
  exact (media_helpers_need_configuration "avatar.png" (Some "users/profile_pictures") None 30
           sample_old_url (startup cloudinary_up) (typed_startup cloudinary_up)).
Defined.

Lemma sample_url_without_upload :
  "upload" ∉ Py.split "/" "https://res.cloudinary.com/demo/image/fetch/abc.jpg".
Proof.
  vm_compute. intros H.
  repeat (apply elem_of_cons in H as [H|H]; [discriminate H|]).
  by apply elem_of_nil in H.
Qed.

Lemma delete_without_upload_segment_witness :
  typed media_world /\
  ("upload" ∉ Py.split "/" "https://res.cloudinary.com/demo/image/fetch/abc.jpg" \/
   (exists pre, Py.split "/" "https://res.cloudinary.com/demo/image/fetch/abc.jpg"
                = (pre ++ ["upload"])%list /\ "upload" ∉ pre)) /\
  exists w',
    delete_from_cloudinary "https://res.cloudinary.com/demo/image/fetch/abc.jpg" media_world
    = (Ok false, w') /\ calls w' = calls media_world.
Proof.
  split; [exact typed_media_world|]. split; [left; exact sample_url_without_upload|].
  exact (delete_without_upload_segment _ media_world typed_media_world
           (or_introl sample_url_without_upload)).
Defined.

Lemma hook_touches_only_picture_fields_witness :
  typed media_world /\
  exists instance' w',
    upload_profile_picture_to_cloudinary sample_changed_user media_world
    = (Ok instance', w') /\
    (instance' = sample_changed_user \/
     exists url, truthy url = true /\ instance' = with_remote_url url sample_changed_user) /\
    user_pk instance' = user_pk sample_changed_user /\
    username instance' = username sample_changed_user /\
    email instance' = email sample_changed_user /\
    users w' = users media_world /\ clock w' = clock media_world /\ typed w'.
Proof.
  split; [exact typed_media_world|].
  exact (hook_touches_only_picture_fields sample_changed_user media_world typed_media_world).
Defined.

Lemma hook_skips_unknown_key_witness :
  pk_truthy (user_pk sample_unknown_user) = true /\
  stored_user sample_unknown_user media_world = None /\
  upload_profile_picture_to_cloudinary sample_unknown_user media_world
  = (Ok sample_unknown_user, media_world).
Proof.
  split; [reflexivity|]. split; [reflexivity|].
  exact (hook_skips_unknown_key sample_unknown_user media_world eq_refl eq_refl).
Defined.

Lemma media_world_uploads_refused_accessor :
  get_cloudinary_config media_world_uploads_refused
  = (Ok (Some (Instance (Some 1) (FCloudinary sample_cloudinary_fields))),
     (get_cloudinary_config media_world_uploads_refused).2).
Proof. vm_compute. reflexivity. Qed.

Lemma sample_old_url_split :
  Py.split "/" (profile_picture_url sample_stored_user)
  = (["https:"; ""; "res.cloudinary.com"; "demo"; "image"]
     ++ "upload" :: "v1" :: ["users"; "profile_pictures"; "old.jpg"])%list.
Proof. vm_compute. reflexivity. Qed.

Lemma sample_old_url_prefix :
  "upload" ∉ ["https:"; ""; "res.cloudinary.com"; "demo"; "image"].
Proof.
  intros H. repeat (apply elem_of_cons in H as [H|H]; [discriminate H|]).
  by apply elem_of_nil in H.
Qed.

Lemma failed_replacement_keeps_submitted_url_witness :
  typed media_world_uploads_refused /\
  pk_truthy (user_pk sample_changed_user) = true /\
  stored_user sample_changed_user media_world_uploads_refused = Some sample_stored_user /\
  profile_picture sample_changed_user = Some "new.png" /\
  truthy "new.png" = true /\
  profile_picture sample_stored_user <> Some "new.png" /\
  Py.contains "cloudinary.com" (profile_picture_url sample_stored_user) = true /\
  (forall trace f q, exists m,
     upload_answer (net media_world_uploads_refused) trace f q = UploadRaises m) /\
  exists public_id w',
    upload_profile_picture_to_cloudinary sample_changed_user media_world_uploads_refused
    = (Ok sample_changed_user, w') /\
    UploaderDestroy public_id ∈ calls w'.
Proof.
  assert (H1 : profile_picture sample_stored_user <> Some "new.png") by discriminate.
  assert (H2 : forall trace f q, exists m,
            upload_answer (net media_world_uploads_refused) trace f q = UploadRaises m)
    by (intros; by eexists).
  split_and!; [exact typed_media_world_uploads_refused|reflexivity|reflexivity|reflexivity
              |reflexivity|exact H1|reflexivity|exact H2|].
  exact (failed_replacement_keeps_submitted_url sample_changed_user sample_stored_user
           "new.png" media_world_uploads_refused (Some 1) sample_cloudinary_fields _
           _ _ _ typed_media_world_uploads_refused eq_refl eq_refl eq_refl eq_refl H1
           media_world_uploads_refused_accessor eq_refl sample_old_url_split
           sample_old_url_prefix H2).
Defined.

Lemma post_form_uploads_and_never_deletes_witness :
  typed media_world /\ truthy "cover.png" = true /\
  let slugify := fun s : string => s in
  let Model_save := fun (A : Type) (a : A) => ret a in
  let save_m2m := ret tt in
  exists url w',
    upload_to_cloudinary "cover.png" (Some "blog/featured") None 30 media_world = (Ok url, w') /\
    (calls w' = calls media_world \/
     exists q, calls w' = (calls media_world ++ [UploaderUpload "cover.png" q])%list /\
               up_folder q = "blog/featured") /\
    let instance' := if truthy_opt url
                     then set_featured_image_url (default "" url) sample_post
                     else sample_post in
    PostAdminForm_save slugify Model_save save_m2m sample_post (Some "cover.png") false
      media_world = (Ok instance', w') /\
    PostAdminForm_save slugify Model_save save_m2m sample_post (Some "cover.png") true
      media_world
      = (do saved <- Post_save slugify Model_save instance'; save_m2m;; ret saved) w'.
Proof.
  split; [exact typed_media_world|]. split; [reflexivity|].
  exact (post_form_uploads_and_never_deletes (fun s : string => s)
           (fun (A : Type) (a : A) => ret a) (ret tt) sample_post "cover.png" media_world
           typed_media_world eq_refl).
Defined.

Lemma changelist_leads_to_the_one_record_witness :
  reachable (startup unreachable) /\
  exists w',
    SingletonModelAdmin.changelist_view Stripe (startup unreachable) =
      (Ok {| url_name := "admin:settings_config_" +:+ model_name Stripe +:+ "_change";
             url_arg := Some 1 |}, w') /\
    size (rows_of Stripe w') = 1%nat /\
    SingletonModelAdmin.has_add_permission Stripe w' = (Ok false, w').
Proof.
  split; [exact (reach_startup unreachable)|].
  exact (changelist_leads_to_the_one_record Stripe (startup unreachable)
           (reach_startup unreachable)).
Defined.

End SamplesMore.

(** ** The hook and the plugin list at the sample worlds *)

Section SamplesRevised.

Import SingletonModel.


(** The stored picture of the replacement case is a URL of the media host
    with identifier [folder/abc]. *)
Lemma replaced_url_hosted :
  hosted_url replaced_url ["https:"; ""; "res.cloudinary.com"; "demo"; "image"] "v1"
    ["folder"; "abc.jpg"] "folder/abc" "jpg".
Proof.
  split_and!; try done.
  - by repeat constructor.
  - intros Hin. repeat (apply elem_of_cons in Hin as [Hin|Hin]; [done|]).
    by apply elem_of_nil in Hin.
  - by exists "https://res.", "/demo/image/upload/v1/folder/abc.jpg".
  - by exists "1".
Qed.

Lemma new_entity_upload_sets_url_or_keeps_fields_witness :
  typed media_world /\
  pk_truthy (user_pk sample_new_user) = false /\
  profile_picture sample_new_user = Some "avatar.png" /\
  truthy "avatar.png" = true /\
  exists r w1,
    load Cloudinary media_world = (Ok r, w1) /\
    let out := upload_profile_picture_to_cloudinary sample_new_user media_world in
    if configured r
    then exists params,
           calls out.2 = (calls media_world ++ [UploaderUpload "avatar.png" params])%list /\
           up_folder params = "users/profile_pictures" /\
           up_resource_type params = "image" /\ up_timeout params = 30 /\
           out.1 = Ok (after_upload
                         (secure_url_of
                            (upload_answer (net media_world) (calls media_world)
                               "avatar.png" params))
                         sample_new_user)
    else out = (Ok sample_new_user, w1) /\ calls w1 = calls media_world.
Proof.
  split_and!; [exact typed_media_world|reflexivity|reflexivity|reflexivity|].
  exact (new_entity_upload_sets_url_or_keeps_fields sample_new_user "avatar.png"
           media_world typed_media_world eq_refl eq_refl eq_refl).
Defined.


(** The replacement case run through: the destroy request for [folder/abc]
    leaves before the upload request, and the instance comes back with the
    new URL and no file. *)
Example hook_replaces_stored_picture :
  let out := upload_profile_picture_to_cloudinary replaced_changed_user replacement_world in
  out.1 = Ok {| user_pk := Some 5; username := "bob"; email := "bob@example.com";
                profile_picture := None;
                profile_picture_url :=
                  "https://res.cloudinary.com/demo/image/upload/v2/users/profile_pictures/new.jpg" |} /\
  exists params,
    calls out.2 = [UploaderDestroy "folder/abc"; UploaderUpload "new.png" params] /\
    up_folder params = "users/profile_pictures".
Proof. vm_compute. split; [done|]. eexists. by split. Qed.

(** A new user while every upload is refused: one request, and the instance
    as submitted. *)
Example hook_keeps_fields_when_upload_fails :
  let out := upload_profile_picture_to_cloudinary sample_new_user
               media_world_uploads_refused in
  out.1 = Ok sample_new_user /\
  exists params, calls out.2 = [UploaderUpload "avatar.png" params].
Proof. vm_compute. split; [done|]. by eexists. Qed.

(** The plugin names of the declared default, and of a field padded with a
    tab, a no-break space and an em space. *)
Example default_plugins_split :
  str_split
    "advlist autolink lists link image charmap preview anchor searchreplace visualblocks code fullscreen insertdatetime media table help wordcount"
  = ["advlist"; "autolink"; "lists"; "link"; "image"; "charmap"; "preview"; "anchor";
     "searchreplace"; "visualblocks"; "code"; "fullscreen"; "insertdatetime"; "media";
     "table"; "help"; "wordcount"].
Proof. vm_compute. reflexivity. Qed.

Example padded_plugins_split :
  str_split padded_plugins = ["advlist"; "autolink"; "lists"; "link"].
Proof. vm_compute. reflexivity. Qed.

End SamplesRevised.
